(** * The event bus of just_agents (core/just_agents/just_bus.py)

    A shallow embedding of [JustEventBus] and [BufferedEventBus]: the bus
    object is a record threaded through every method, a subscriber callback
    is an opaque state transformer that may return or raise, and the methods
    are written in a small state-and-exception monad. *)

From Stdlib Require Import String Ascii List Arith ZArith Bool Lia.
Import ListNotations.
Open Scope string_scope.
Open Scope list_scope.

(** ** Python string operations used by the bus *)

Module PyStr.

(** [s.startswith(p)] *)
Definition startswith (s p : string) : bool := String.prefix p s.

(** [s.endswith(suf)] *)
Definition endswith (s suf : string) : bool :=
  Nat.leb (String.length suf) (String.length s) &&
  String.eqb (substring (String.length s - String.length suf)
                        (String.length suf) s) suf.

(** [s[:-k]] for a positive literal [k] *)
Definition slice_to_neg (k : nat) (s : string) : string :=
  substring 0 (String.length s - k) s.

(** truthiness of a string: the empty string is falsy *)
Definition truthy (s : string) : bool := negb (String.eqb s "").

End PyStr.

(** ** Insertion-ordered dictionaries with string keys

    A Python [dict] iterates its keys in the order of their first insertion;
    dispatch depends on that order, so the dictionary is an association list
    whose operations keep the position of an existing key. *)

Module PyDict.

Section Dict.
Context {V : Type}.

Definition t := list (string * V).

(** [d.get(k)] *)
Fixpoint get (d : t) (k : string) : option V :=
  match d with
  | [] => None
  | (k', v) :: rest => if String.eqb k' k then Some v else get rest k
  end.

(** [k in d] *)
Definition mem (d : t) (k : string) : bool :=
  match get d k with Some _ => true | None => false end.

(** [d[k] = v]: an existing key keeps its place, a new key goes last *)
Fixpoint set (d : t) (k : string) (v : V) : t :=
  match d with
  | [] => [(k, v)]
  | (k', v') :: rest =>
      if String.eqb k' k then (k', v) :: rest else (k', v') :: set rest k v
  end.

Definition keys (d : t) : list string := map fst d.

End Dict.

Arguments t : clear implicits.

End PyDict.

(** ** The bus object and the monad of its methods *)

Section Bus.

(** [Any]: the values passed as positional and keyword arguments;
    [Exn]: what a callback can raise;
    [Ext]: whatever state the callbacks keep outside of the bus. *)
Context {Any Exn Ext : Type}.

(** The bus never looks inside a callback: it compares callbacks, in the
    membership test of the [seen] set and in [list.remove], and it calls
    them. The comparison is Python's equality of callables, which for
    functions is the identity of the object; a callback is represented by
    its identity, a number. *)
Definition callback := nat.

Record event := Event {
  event_name : string;
  args : list Any;
  kwargs : list (string * Any)
}.

(** The instance attributes of a bus, and two pieces of context: [calls]
    records every invocation [cb(event_name, *args, **kwargs)] that a
    dispatch pass makes, in order; [world] is the callbacks' own state. *)
Record Bus := mkBus {
  _subscribers : PyDict.t (list callback);
  _buffer : list event;
  _buffer_max_size : nat;
  calls : list (callback * event);
  world : Ext
}.

Definition set_subscribers (d : PyDict.t (list callback)) (b : Bus) : Bus :=
  mkBus d (_buffer b) (_buffer_max_size b) (calls b) (world b).

Definition set_buffer (q : list event) (b : Bus) : Bus :=
  mkBus (_subscribers b) q (_buffer_max_size b) (calls b) (world b).

Definition record_call (cb : callback) (ev : event) (b : Bus) : Bus :=
  mkBus (_subscribers b) (_buffer b) (_buffer_max_size b)
        (calls b ++ [(cb, ev)]) (world b).

(** A method either returns a value or raises, and leaves a bus behind in
    both cases. *)
Inductive outcome (A : Type) : Type :=
| Returned (a : A) (b : Bus)
| Raised (e : Exn) (b : Bus).

Arguments Returned {A} a b.
Arguments Raised {A} e b.

Definition M (A : Type) : Type := Bus -> outcome A.

Definition ret {A} (a : A) : M A := fun b => Returned a b.

Definition bind {A B} (m : M A) (k : A -> M B) : M B :=
  fun b => match m b with
           | Returned a b' => k a b'
           | Raised e b' => Raised e b'
           end.

Definition modify (f : Bus -> Bus) : M unit := fun b => Returned tt (f b).

Definition final {A} (o : outcome A) : Bus :=
  match o with Returned _ b => b | Raised _ b => b end.

Notation "x <- m ;; k" := (bind m (fun x => k))
  (at level 100, m at next level, right associativity).
Notation "m ;;; k" := (bind m (fun _ => k))
  (at level 100, right associativity).

(** The behaviour of the callbacks: what calling the callable with identity
    [cb] on an event does to the bus and to the world. A callback may call
    back into the bus, so it sees and returns the whole state. *)
Variable run : callback -> event -> M unit.

(** [cb(event_name, *args, **kwargs)] *)
Definition invoke (cb : callback) (ev : event) : M unit :=
  fun b => run cb ev (record_call cb ev b).

(** ** JustEventBus *)

(** [subscribe], lines 38-52 *)
Definition subscribe (event_prefix : string) (cb : callback) : M bool :=
  fun b =>
    let d := _subscribers b in
    let d1 := if PyDict.mem d event_prefix then d
              else PyDict.set d event_prefix [] in
    let l := match PyDict.get d1 event_prefix with
             | Some l => l
             | None => []
             end in
    Returned true (set_subscribers (PyDict.set d1 event_prefix (l ++ [cb])) b).

(** [list.remove(x)]: drops the first element equal to [x]; [None] stands
    for the [ValueError] raised when there is none. *)
Fixpoint list_remove (cb : callback) (l : list callback)
  : option (list callback) :=
  match l with
  | [] => None
  | c :: rest =>
      if Nat.eqb c cb then Some rest
      else match list_remove cb rest with
           | Some rest' => Some (c :: rest')
           | None => None
           end
  end.

(** [unsubscribe], lines 54-72 *)
Definition unsubscribe (event_prefix : string) (cb : callback) : M bool :=
  fun b =>
    match PyDict.get (_subscribers b) event_prefix with
    | Some l =>
        match list_remove cb l with
        | Some l' =>
            Returned true
              (set_subscribers (PyDict.set (_subscribers b) event_prefix l') b)
        | None => Returned false b
        end
    | None => Returned false b
    end.

(** Lines 103-111: the exact-match list, then the lists of the prefix
    patterns in the dictionary's iteration order. *)
Definition exact_callbacks (d : PyDict.t (list callback)) (name : string)
  : list callback :=
  match PyDict.get d name with Some l => l | None => [] end.

Fixpoint prefix_callbacks (d : PyDict.t (list callback)) (name : string)
  : list callback :=
  match d with
  | [] => []
  | (pattern, callbacks) :: rest =>
      if PyStr.endswith pattern ".*" then
        let prefix := PyStr.slice_to_neg 2 pattern in
        if PyStr.startswith name prefix
        then callbacks ++ prefix_callbacks rest name
        else prefix_callbacks rest name
      else prefix_callbacks rest name
  end.

(** [cb in seen] *)
Definition in_seen (cb : callback) (seen : list callback) : bool :=
  existsb (Nat.eqb cb) seen.

(** Lines 114-118: the loop over [exact_callbacks + prefix_callbacks]. The
    list was built before the loop starts, so what a callback does to the
    registry cannot change it. *)
Fixpoint invoke_all (ev : event) (cbs seen : list callback)
  : M (list callback) :=
  match cbs with
  | [] => ret seen
  | cb :: rest =>
      if in_seen cb seen then invoke_all ev rest seen
      else (invoke cb ev ;;; invoke_all ev rest (seen ++ [cb]))
  end.

(** [_dispatch_event], lines 91-119 *)
Definition _dispatch_event (ev : event) : M bool :=
  fun b =>
    let exact := exact_callbacks (_subscribers b) (event_name ev) in
    let pref := prefix_callbacks (_subscribers b) (event_name ev) in
    (seen <- invoke_all ev (exact ++ pref) [] ;;
     ret (Nat.ltb 0 (length seen))) b.

(** [publish], lines 74-89 *)
Definition publish (ev : event) : M bool := _dispatch_event ev.

(** ** BufferedEventBus *)

(** [deque.append(x)] on a [deque(maxlen=n)]: the item is added on the right
    and, when the deque is then longer than [maxlen], the leftmost item is
    dropped. *)
Definition deque_append (maxlen : nat) (q : list event) (x : event)
  : list event :=
  let q' := q ++ [x] in
  if Nat.ltb maxlen (length q') then tl q' else q'.

(** [__init__], lines 132-142 *)
Definition BufferedEventBus_init (buffer_size : nat) (w : Ext) : Bus :=
  mkBus [] [] buffer_size [] w.

(** [self._buffer.append((event_name, args, kwargs))] *)
Definition buffer_append (ev : event) : M unit :=
  modify (fun b =>
            set_buffer (deque_append (_buffer_max_size b) (_buffer b) ev) b).

(** Line 200: [trim_prefix and event_name.startswith(trim_prefix)], where
    [trim_prefix] is [None] or a string *)
Definition trims (trim_prefix : option string) (ev : event) : bool :=
  match trim_prefix with
  | None => false
  | Some p => PyStr.truthy p && PyStr.startswith (event_name ev) p
  end.

(** Lines 193-209: [for _ in range(buffer_size)], with [removed_count] as
    the accumulator. *)
Fixpoint flush_loop (trim_prefix : option string) (n removed_count : nat)
  : M nat :=
  match n with
  | 0 => ret removed_count
  | S n' =>
      fun b =>
        match _buffer b with
        | [] => Returned removed_count b
        | ev :: rest =>
            let b1 := set_buffer rest b in
            if trims trim_prefix ev
            then flush_loop trim_prefix n' (removed_count + 1) b1
            else
              (delivered <- _dispatch_event ev ;;
               if negb delivered
               then (buffer_append ev ;;;
                     flush_loop trim_prefix n' removed_count)
               else flush_loop trim_prefix n' (removed_count + 1)) b1
        end
  end.

(** [_flush_buffer], lines 180-211 *)
Definition _flush_buffer (trim_prefix : option string) : M nat :=
  fun b => flush_loop trim_prefix (length (_buffer b)) 0 b.

(** [BufferedEventBus.subscribe], lines 144-156 *)
Definition BufferedEventBus_subscribe (event_prefix : string) (cb : callback)
  : M bool :=
  result <- subscribe event_prefix cb ;;
  _flush_buffer None ;;;
  ret result.

(** [BufferedEventBus.publish], lines 158-178 *)
Definition BufferedEventBus_publish (ev : event) : M bool :=
  delivered <- publish ev ;;
  (if negb delivered then buffer_append ev else ret tt) ;;;
  _flush_buffer None ;;;
  ret delivered.

(** [trim_by_prefix], lines 213-222 *)
Definition trim_by_prefix (prefix : string) : M nat :=
  _flush_buffer (Some prefix).

End Bus.

Arguments event : clear implicits.
Arguments Bus : clear implicits.
Arguments outcome : clear implicits.
Arguments M : clear implicits.
Arguments Returned {Any Exn Ext A} a b.
Arguments Raised {Any Exn Ext A} e b.

Notation "x <- m ;; k" := (bind m (fun x => k))
  (at level 100, m at next level, right associativity).
Notation "m ;;; k" := (bind m (fun _ => k))
  (at level 100, right associativity).

(** ** Vocabulary of the statements *)

(** The elements of [l] that are not in [seen], each at its first
    occurrence: the callbacks that the deduplicating loop of
    [_dispatch_event] invokes, in the order in which it invokes them. *)
Fixpoint first_occ {A : Type} (eqb : A -> A -> bool) (l seen : list A)
  : list A :=
  match l with
  | [] => []
  | x :: rest =>
      if existsb (eqb x) seen then first_occ eqb rest seen
      else x :: first_occ eqb rest (seen ++ [x])
  end.

(** The callbacks one dispatch of an event called [name] invokes. *)
Definition dispatch_order (d : PyDict.t (list callback)) (name : string)
  : list callback :=
  first_occ Nat.eqb (exact_callbacks d name ++ prefix_callbacks d name) [].

(** A pattern matches an event name when it is that name, or when it is
    [p.*] and the name starts with [p]. *)
Definition prefix_matches (pattern name : string) : Prop :=
  exists p r, pattern = (p ++ ".*")%string /\ name = (p ++ r)%string.

Definition matches (pattern name : string) : Prop :=
  pattern = name \/ prefix_matches pattern name.

(** The test of lines 108-110 on one pattern. *)
Definition is_prefix_match (name pattern : string) : bool :=
  PyStr.endswith pattern ".*" &&
  PyStr.startswith name (PyStr.slice_to_neg 2 pattern).




Section Vocabulary.

Context {Any Exn Ext : Type}.
Variable run : callback -> event Any -> M Any Exn Ext unit.


Definition set_world (w : Ext) (b : Bus Any Ext) : Bus Any Ext :=
  mkBus (_subscribers b) (_buffer b) (_buffer_max_size b) (calls b) w.

(** What a statement may assume of a callback: that it returns without
    dispatching anything itself, that it raises [e] without dispatching
    anything itself, or that it returns and leaves the bus alone. *)
Definition returns_normally (cb : callback) : Prop :=
  forall ev b, exists b', run cb ev b = Returned tt b' /\ calls b' = calls b.

Definition raises (cb : callback) (e : Exn) : Prop :=
  forall ev b, exists b', run cb ev b = Raised e b' /\ calls b' = calls b.

Definition quiet (cb : callback) : Prop :=
  forall ev b, exists w, run cb ev b = Returned tt (set_world w b).

(** The capacity invariant of the buffer. *)
Definition within_capacity (C : nat) (b : Bus Any Ext) : Prop :=
  _buffer_max_size b = C /\ length (_buffer b) <= C.

(** The public operations of a buffered bus, and a caller that performs a
    sequence of them, going on after an operation that raised. *)
Inductive op : Type :=
| OpSubscribe (pattern : string) (cb : callback)
| OpUnsubscribe (pattern : string) (cb : callback)
| OpPublish (ev : event Any)
| OpTrim (prefix : string).

Definition run_op (o : op) (b : Bus Any Ext) : Bus Any Ext :=
  match o with
  | OpSubscribe pattern cb => final (BufferedEventBus_subscribe run pattern cb b)
  | OpUnsubscribe pattern cb => final (unsubscribe (Exn := Exn) pattern cb b)
  | OpPublish ev => final (BufferedEventBus_publish run ev b)
  | OpTrim prefix => final (trim_by_prefix run prefix b)
  end.

Definition run_ops (ops : list op) (b : Bus Any Ext) : Bus Any Ext :=
  fold_left (fun b o => run_op o b) ops b.

(** Publishing a list of events one after the other, collecting the
    results. *)
Fixpoint publish_all (evs : list (event Any)) : M Any Exn Ext (list bool) :=
  match evs with
  | [] => ret []
  | ev :: rest =>
      (r <- BufferedEventBus_publish run ev ;;
       rs <- publish_all rest ;;
       ret (r :: rs))
  end.

(** An event is deliverable when a dispatch would invoke somebody. *)
Definition deliverable (d : PyDict.t (list callback)) (ev : event Any)
  : bool :=
  match dispatch_order d (event_name ev) with [] => false | _ => true end.

(** The invocations made by dispatching [ev]. *)
Definition calls_for (d : PyDict.t (list callback)) (ev : event Any)
  : list (callback * event Any) :=
  map (fun cb => (cb, ev)) (dispatch_order d (event_name ev)).

(** A buffered event survives a flush pass when the pass neither trims nor
    delivers it. *)
Definition survives (trim_prefix : option string)
           (d : PyDict.t (list callback)) (ev : event Any) : bool :=
  negb (trims trim_prefix ev) && negb (deliverable d ev).

End Vocabulary.

Arguments op : clear implicits.

(** ** Concrete buses and callbacks

    Events without payload, callbacks that raise strings and keep no state
    of their own. *)

Definition Table : Type := callback -> event nat -> M nat string unit unit.

Definition named (name : string) : event nat := Event name [] [].

Definition fresh (buffer_size : nat) : Bus nat unit :=
  BufferedEventBus_init buffer_size tt.

(** Callbacks that do nothing. *)
Definition idle : Table := fun _ _ => ret tt.

(** Callback [2] raises, the others do nothing. *)
Definition faulty : Table :=
  fun cb _ b => if Nat.eqb cb 2 then Raised "boom" b else Returned tt b.

(** Callback [1] publishes ["X"] and then ["Y"] on the bus it is subscribed
    to, the others do nothing; [inner] is the behaviour of the callbacks
    that these two publishes reach. *)
Definition republishing (inner : Table) : Table :=
  fun cb _ =>
    if Nat.eqb cb 1
    then (BufferedEventBus_publish inner (named "X") ;;;
          BufferedEventBus_publish inner (named "Y") ;;;
          ret tt)
    else ret tt.

(** ** Callable objects

    A callable object as Python has it: the identity of the object, which
    [is] compares, and the callback it is to the bus, that is its value
    under [==] and [hash], which is all that the [seen] set and
    [list.remove] compare. For a function the two coincide. Every
    evaluation of [obj.method] gives a new bound-method object, and all of
    them are equal: different identities, one callback. *)
Record pyobject : Type := PyObject {
  object_id : nat;
  as_callback : callback
}.

(** Three evaluations of one [obj.method]. *)
Definition method_first : pyobject := PyObject 1 7.
Definition method_second : pyobject := PyObject 2 7.
Definition method_third : pyobject := PyObject 3 7.

(** ** SingletonMeta (just_bus.py, lines 4-13)

    The classes that use the metaclass, the dictionary [_instances] that
    they share, and what calling a class does. The argument list of a
    construction is the [buffer_size] given, if any. *)

Inductive bus_class : Type :=
| JustEventBus_class
| BufferedEventBus_class
| JustToolsBus_class
| JustLogBus_class
| just_tool_JustToolsBus_class.

Definition bus_class_eqb (c1 c2 : bus_class) : bool :=
  match c1, c2 with
  | JustEventBus_class, JustEventBus_class
  | BufferedEventBus_class, BufferedEventBus_class
  | JustToolsBus_class, JustToolsBus_class
  | JustLogBus_class, JustLogBus_class
  | just_tool_JustToolsBus_class, just_tool_JustToolsBus_class => true
  | _, _ => false
  end.

(** The classes whose [__init__] is that of [BufferedEventBus]. *)
Definition is_buffered (cls : bus_class) : bool :=
  match cls with
  | BufferedEventBus_class | JustLogBus_class => true
  | _ => false
  end.

(** What a construction can raise: [TypeError] for an argument that
    [JustEventBus.__init__] does not take, [ValueError] from
    [deque(maxlen=...)] for a negative size. *)
Inductive init_error : Type := init_TypeError | init_ValueError.

Section Singleton.

Context {Any Ext : Type}.

(** [JustEventBus.__init__], lines 34-36; a core bus has no buffer. *)
Definition JustEventBus_init (w : Ext) : Bus Any Ext := mkBus [] [] 0 [] w.

Definition instances : Type := list (bus_class * Bus Any Ext).

(** [cls._instances.get(cls)] *)
Fixpoint instance_of (inst : instances) (cls : bus_class)
  : option (Bus Any Ext) :=
  match inst with
  | [] => None
  | (c, b) :: rest => if bus_class_eqb c cls then Some b else instance_of rest cls
  end.

(** The call of [super().__call__] with the arguments: the class's
    [__init__] on a new object. *)
Definition construct (cls : bus_class) (buffer_size : option Z) (w : Ext)
  : Bus Any Ext + init_error :=
  if is_buffered cls then
    let n := match buffer_size with Some n => n | None => 255%Z end in
    if (n <? 0)%Z then inr init_ValueError
    else inl (BufferedEventBus_init (Z.to_nat n) w)
  else
    match buffer_size with
    | None => inl (JustEventBus_init w)
    | Some _ => inr init_TypeError
    end.

(** [SingletonMeta.__call__], lines 10-13: the dictionary afterwards and
    the instance returned. *)
Definition SingletonMeta_call (cls : bus_class) (buffer_size : option Z)
           (w : Ext) (inst : instances)
  : instances * Bus Any Ext + init_error :=
  match instance_of inst cls with
  | Some b => inl (inst, b)
  | None =>
      match construct cls buffer_size w with
      | inl b => inl (inst ++ [(cls, b)], b)
      | inr e => inr e
      end
  end.

End Singleton.

(** ** JustTool (just_tool.py): the wrapper and the subscriptions *)

Section Tool.

Context {Any Exn Ext : Type}.
Variable run : callback -> event Any -> M Any Exn Ext unit.

(** Python values that the events carry: a [dict] of keyword arguments and
    an exception, as values; which exceptions [except Exception] catches;
    the [ValueError] with a given message. *)
Variable of_dict : list (string * Any) -> Any.
Variable of_exn : Exn -> Any.
Variable is_Exception : Exn -> bool.
Variable ValueError : string -> Exn.

Definition raise {A : Type} (e : Exn) : M Any Exn Ext A :=
  fun b => Raised e b.

(** [try: body except <catches> as e: handler(e)] *)
Definition try_except {A : Type} (body : M Any Exn Ext A)
           (catches : Exn -> bool) (handler : Exn -> M Any Exn Ext A)
  : M Any Exn Ext A :=
  fun b => match body b with
           | Returned a b' => Returned a b'
           | Raised e b' => if catches e then handler e b' else Raised e b'
           end.

(** The three events of lines 57, 60 and 63. *)
Definition execute_event (name : string) (args : list Any)
           (kwargs : list (string * Any)) : event Any :=
  Event (name ++ ".execute") args [("kwargs", of_dict kwargs)].

Definition result_event (name : string) (result : Any)
           (kwargs : list (string * Any)) : event Any :=
  Event (name ++ ".result") []
        [("result_interceptor", result); ("kwargs", of_dict kwargs)].

Definition error_event (name : string) (e : Exn) : event Any :=
  Event (name ++ ".error") [] [("error", of_exn e)].

(** [_wrap_function(func, name)], lines 50-65: the wrapper it returns,
    applied to [*args] and [**kwargs], on the tools bus. *)
Definition _wrap_function
           (func : list Any -> list (string * Any) -> M Any Exn Ext Any)
           (name : string) (args : list Any) (kwargs : list (string * Any))
  : M Any Exn Ext Any :=
  publish run (execute_event name args kwargs) ;;;
  try_except
    (result <- func args kwargs ;;
     publish run (result_event name result kwargs) ;;;
     ret result)
    is_Exception
    (fun e => publish run (error_event name e) ;;; raise e).

(** [JustTool.subscribe], lines 116-124, for the tool called [name] *)
Definition JustTool_subscribe (name : string) (cb : callback)
           (type : option string) : M Any Exn Ext bool :=
  match type with
  | None => subscribe (name ++ ".*") cb
  | Some t => subscribe (name ++ "." ++ t) cb
  end.

(** [JustTool.unsubscribe], lines 126-134 *)
Definition JustTool_unsubscribe (name : string) (cb : callback)
           (type : option string) : M Any Exn Ext bool :=
  match type with
  | None => unsubscribe (name ++ ".*") cb
  | Some t => unsubscribe (name ++ "." ++ t) cb
  end.

(** [subscribe_to_call], [subscribe_to_result], [subscribe_to_error],
    lines 136-161 *)
Definition subscribe_to_call (name : string) (cb : callback)
  : M Any Exn Ext unit :=
  ok <- JustTool_subscribe name cb (Some "execute") ;;
  if negb ok
  then raise (ValueError ("Failed to subscribe to " ++ name ++ ".execute"))
  else ret tt.

Definition subscribe_to_result (name : string) (cb : callback)
  : M Any Exn Ext unit :=
  ok <- JustTool_subscribe name cb (Some "result") ;;
  if negb ok
  then raise (ValueError ("Failed to subscribe to " ++ name ++ ".result"))
  else ret tt.

Definition subscribe_to_error (name : string) (cb : callback)
  : M Any Exn Ext unit :=
  ok <- JustTool_subscribe name cb (Some "error") ;;
  if negb ok
  then raise (ValueError ("Failed to subscribe to " ++ name ++ ".error"))
  else ret tt.

(** What a statement may assume of the wrapped function and of a raising
    callback: that they leave the bus alone. *)
Definition function_returns
           (func : list Any -> list (string * Any) -> M Any Exn Ext Any)
           (args : list Any) (kwargs : list (string * Any)) (r : Any) : Prop :=
  forall b, exists w, func args kwargs b = Returned r (set_world w b).

Definition function_raises
           (func : list Any -> list (string * Any) -> M Any Exn Ext Any)
           (args : list Any) (kwargs : list (string * Any)) (e : Exn) : Prop :=
  forall b, exists w, func args kwargs b = Raised e (set_world w b).

Definition quiet_raise (cb : callback) (e : Exn) : Prop :=
  forall ev b, exists w, run cb ev b = Raised e (set_world w b).

End Tool.

(** ** JustLogBus (just_bus.py, lines 231-319) *)

Section LogBus.

Context {Any Exn Ext : Type}.
Variable run : callback -> event Any -> M Any Exn Ext unit.

(** A string as a value, and the [TypeError] of a call that gives one
    keyword twice. *)
Variable of_str : string -> Any.
Variable TypeError : Exn.

(** The names of the parameters that [log_message] and the six helpers
    have besides [**kwargs]. *)
Definition is_parameter (k : string) : bool :=
  String.eqb k "message" || String.eqb k "source" || String.eqb k "action".

Definition no_parameter (items : list (string * Any)) : bool :=
  forallb (fun kv => negb (is_parameter (fst kv))) items.

(** The dictionary that such a function finds in [**kwargs]: the keywords
    of the call other than [message], [source] and [action]. A keyword with
    one of these names is the value of the parameter, and a call that gives
    a parameter two values is refused before the function runs; so the
    dictionary never has such a key. *)
Record keywords : Type := Keywords {
  items : list (string * Any);
  items_ok : no_parameter items = true
}.

(** [k in kwargs] *)
Definition has_key (k : string) (kwargs : list (string * Any)) : bool :=
  existsb (fun kv => String.eqb (fst kv) k) kwargs.

Definition or_default (x : option string) (d : string) : string :=
  match x with Some s => s | None => d end.

(** [log_message], lines 237-247; [source] and [action] are the values
    that the call gives, if it gives them. The call of [publish] gives
    [log_message] and [action] by keyword and binds [self] and
    [event_name] by position, so it raises when [**kwargs] has
    [log_message], [self] or [event_name] ([action] it cannot have). *)
Definition log_message (message : string) (source action : option string)
           (kwargs : keywords) : M Any Exn Ext unit :=
  if has_key "log_message" (items kwargs) || has_key "self" (items kwargs)
     || has_key "event_name" (items kwargs)
  then raise TypeError
  else
    (BufferedEventBus_publish run
       (Event (or_default source "anonymous_logger") []
              (("log_message", of_str message)
                 :: ("action", of_str (or_default action "log_bus.log_entry"))
                 :: items kwargs)) ;;;
     ret tt).

(** The call [log_message(message, source, action, severity=..., **kwargs)]
    of the six helpers: it raises when [**kwargs] has [severity] too. *)
Definition log_with_severity (severity default_action message : string)
           (source action : option string) (kwargs : keywords)
  : M Any Exn Ext unit :=
  if has_key "severity" (items kwargs) then raise TypeError
  else log_message message
         (Some (or_default source "anonymous_logger"))
         (Some (or_default action default_action))
         (Keywords (("severity", of_str severity) :: items kwargs)
                   (items_ok kwargs)).

(** Lines 249-319 *)
Definition trace := log_with_severity "TRACE" "log_bus.trace".
Definition debug := log_with_severity "DEBUG" "log_bus.debug".
Definition info := log_with_severity "INFO" "log_bus.info".
Definition warn := log_with_severity "WARN" "log_bus.warn".
Definition error := log_with_severity "ERROR" "log_bus.error".
Definition fatal := log_with_severity "FATAL" "log_bus.fatal".

End LogBus.

Arguments keywords : clear implicits.


(** Concrete tools: payloads are numbers, a dictionary is represented by
    its size and an exception by the length of its message. *)
Definition size_of_dict (kwargs : list (string * nat)) : nat := length kwargs.

Definition length_of_message (e : string) : nat := String.length e.

Definition every_exception (e : string) : bool := true.

Definition value_error (msg : string) : string := msg.

(** A function that returns 42 and one that raises. *)
Definition answer : list nat -> list (string * nat) -> M nat string unit nat :=
  fun _ _ => ret 42.

Definition failing : list nat -> list (string * nat) -> M nat string unit nat :=
  fun _ _ b => Raised "failed" b.

(** Callback [2] raises on every event, quietly. *)
Definition breaking : Table :=
  fun cb _ b => if Nat.eqb cb 2 then Raised "broken" b else Returned tt b.

(** ** Facts about the string operations *)

Module PyStrFacts.

Lemma length_append (a b : string) :
  String.length (a ++ b) = String.length a + String.length b.
Proof. induction a as [|c a IH]; simpl; [reflexivity | now rewrite IH]. Qed.

Lemma substring_all (s : string) : substring 0 (String.length s) s = s.
Proof. induction s as [|c s IH]; simpl; [reflexivity | now rewrite IH]. Qed.

Lemma substring_head (a b : string) :
  substring 0 (String.length a) (a ++ b) = a.
Proof.
  induction a as [|c a IH]; simpl.
  - now destruct b.
  - now rewrite IH.
Qed.

Lemma substring_tail (a b : string) :
  substring (String.length a) (String.length b) (a ++ b) = b.
Proof.
  induction a as [|c a IH]; simpl; [apply substring_all | exact IH].
Qed.

Lemma substring_split (s : string) :
  forall n, n <= String.length s ->
            s = (substring 0 n s ++ substring n (String.length s - n) s)%string.
Proof.
  induction s as [|c s IH]; intros n Hn; simpl in *.
  - now destruct n.
  - destruct n as [|n]; simpl.
    + now rewrite substring_all.
    + f_equal. apply IH. lia.
Qed.

Lemma endswith_iff (s suf : string) :
  PyStr.endswith s suf = true <-> exists p, s = (p ++ suf)%string.
Proof.
  unfold PyStr.endswith. rewrite andb_true_iff, Nat.leb_le, String.eqb_eq.
  split.
  - intros [Hle Hsub].
    exists (substring 0 (String.length s - String.length suf) s).
    pose proof (substring_split s (String.length s - String.length suf))
      as Hsplit.
    replace (String.length s - (String.length s - String.length suf))
      with (String.length suf) in Hsplit by lia.
    rewrite Hsub in Hsplit. apply Hsplit. lia.
  - intros [p ->]. rewrite length_append. split; [lia|].
    replace (String.length p + String.length suf - String.length suf)
      with (String.length p) by lia.
    apply substring_tail.
Qed.

Lemma slice_to_neg_app (p suf : string) :
  PyStr.slice_to_neg (String.length suf) (p ++ suf) = p.
Proof.
  unfold PyStr.slice_to_neg. rewrite length_append.
  replace (String.length p + String.length suf - String.length suf)
    with (String.length p) by lia.
  apply substring_head.
Qed.

Lemma startswith_iff (s p : string) :
  PyStr.startswith s p = true <-> exists r, s = (p ++ r)%string.
Proof.
  unfold PyStr.startswith. revert s.
  induction p as [|c p IH]; intros s; simpl.
  - destruct s; split; eauto.
  - destruct s as [|d s]; simpl.
    + split; [discriminate | intros [r Hr]; discriminate].
    + destruct (ascii_dec c d) as [->|Hcd].
      * rewrite IH. split; intros [r Hr]; exists r; congruence.
      * split; [discriminate | intros [r Hr]; congruence].
Qed.

Lemma startswith_empty (s : string) : PyStr.startswith s "" = true.
Proof. apply startswith_iff. now exists s. Qed.

End PyStrFacts.

(** ** Facts about dictionaries *)

Module PyDictFacts.

Section Facts.
Context {V : Type}.
Implicit Types (d : PyDict.t V) (k q : string) (v : V).

Lemma get_set_same d k v : PyDict.get (PyDict.set d k v) k = Some v.
Proof.
  induction d as [|[k' v'] d IH]; simpl.
  - now rewrite String.eqb_refl.
  - destruct (String.eqb k' k) eqn:E; simpl; rewrite E; [reflexivity|exact IH].
Qed.

Lemma get_set_other d k q v :
  q <> k -> PyDict.get (PyDict.set d k v) q = PyDict.get d q.
Proof.
  intros Hq. induction d as [|[k' v'] d IH]; simpl.
  - destruct (String.eqb k q) eqn:E; [|reflexivity].
    apply String.eqb_eq in E. congruence.
  - destruct (String.eqb k' k) eqn:E; simpl.
    + apply String.eqb_eq in E. subst k'.
      destruct (String.eqb k q) eqn:E'; [|reflexivity].
      apply String.eqb_eq in E'. congruence.
    + now rewrite IH.
Qed.

Lemma get_In d k v : PyDict.get d k = Some v -> In (k, v) d.
Proof.
  induction d as [|[k' v'] d IH]; simpl; [discriminate|].
  destruct (String.eqb k' k) eqn:E.
  - apply String.eqb_eq in E. intros [= ->]. left. now subst.
  - intros H. right. now apply IH.
Qed.



Lemma keys_set d k v :
  PyDict.keys (PyDict.set d k v)
  = PyDict.keys d ++ (if PyDict.mem d k then [] else [k]).
Proof.
  unfold PyDict.mem, PyDict.keys.
  induction d as [|[k' v'] d IH]; simpl; [reflexivity|].
  destruct (String.eqb k' k) eqn:E; simpl.
  - now rewrite app_nil_r.
  - now rewrite IH.
Qed.

Lemma get_unique d k v :
  NoDup (PyDict.keys d) -> In (k, v) d -> PyDict.get d k = Some v.
Proof.
  induction d as [|[k' v'] d IH]; simpl; [tauto|].
  intros Hnd [[= -> ->]|Hin].
  - now rewrite String.eqb_refl.
  - inversion Hnd as [|? ? Hk' Hnd']; subst.
    destruct (String.eqb k' k) eqn:E.
    + apply String.eqb_eq in E. subst k'.
      exfalso. apply Hk'. now apply (in_map fst) in Hin.
    + now apply IH.
Qed.

End Facts.

End PyDictFacts.

(** ** Facts about [list.remove] *)

Lemma list_remove_Some cb l l' :
  list_remove cb l = Some l' <->
  exists pre post, l = pre ++ cb :: post /\ ~ In cb pre /\ l' = pre ++ post.
Proof.
  revert l'. induction l as [|c l IH]; intros l'; simpl.
  - split; [discriminate|]. intros (pre & post & H & _). now destruct pre.
  - destruct (Nat.eqb c cb) eqn:E.
    + apply Nat.eqb_eq in E. subst c. split.
      * intros [= <-]. now exists [], l.
      * intros (pre & post & H & Hpre & ->). destruct pre as [|x pre].
        -- simpl in *. congruence.
        -- injection H as <- _. exfalso. apply Hpre. now left.
    + apply Nat.eqb_neq in E. destruct (list_remove cb l) as [r|] eqn:Hr.
      * split.
        -- intros [= <-].
           destruct (proj1 (IH r) eq_refl) as (pre & post & -> & Hpre & ->).
           exists (c :: pre), post. simpl. intuition congruence.
        -- intros (pre & post & H & Hpre & ->). destruct pre as [|x pre].
           ++ simpl in H. congruence.
           ++ injection H as <- ->. simpl. f_equal.
              assert (Some r = Some (pre ++ post)) as [= ->]; [|reflexivity].
              apply IH. exists pre, post. simpl in Hpre. tauto.
      * split; [discriminate|].
        intros (pre & post & H & Hpre & ->). destruct pre as [|x pre].
        -- simpl in H. congruence.
        -- injection H as <- ->.
           assert (None = Some (pre ++ post)); [|discriminate].
           apply IH. exists pre, post. simpl in Hpre. tauto.
Qed.

Lemma list_remove_None cb l : list_remove cb l = None <-> ~ In cb l.
Proof.
  induction l as [|c l IH]; simpl; [tauto|].
  destruct (Nat.eqb c cb) eqn:E.
  - apply Nat.eqb_eq in E. split; [discriminate | tauto].
  - apply Nat.eqb_neq in E. destruct (list_remove cb l).
    + split; [discriminate|]. intros H. exfalso.
      assert (Some l0 = None) by (apply IH; tauto). discriminate.
    + split; [|reflexivity]. intros _ [H|H]; [tauto|].
      now apply (proj1 IH).
Qed.

(** ** Facts about first occurrences *)

Section FirstOcc.

Context {A : Type} (eqb : A -> A -> bool).
Hypothesis eqb_eq : forall x y, eqb x y = true <-> x = y.

Lemma existsb_eqb_In x l : existsb (eqb x) l = true <-> In x l.
Proof.
  rewrite existsb_exists. split.
  - intros (y & Hy & E). apply eqb_eq in E. now subst.
  - intros H. exists x. split; [exact H | now apply eqb_eq].
Qed.

Lemma existsb_eqb_notIn x l : existsb (eqb x) l = false <-> ~ In x l.
Proof.
  rewrite <- existsb_eqb_In. destruct (existsb (eqb x) l); intuition congruence.
Qed.

Lemma first_occ_In x l :
  forall seen, In x (first_occ eqb l seen) <-> In x l /\ ~ In x seen.
Proof.
  induction l as [|y l IH]; intros seen; simpl.
  - tauto.
  - destruct (existsb (eqb y) seen) eqn:E.
    + apply existsb_eqb_In in E. rewrite IH.
      split; [tauto|]. intros [[->|H] Hs]; tauto.
    + apply existsb_eqb_notIn in E. simpl. rewrite IH, in_app_iff. simpl.
      split.
      * intros [->|[H Hs]]; tauto.
      * intros [[->|H] Hs]; [now left|].
        destruct (eqb y x) eqn:Eyx.
        -- apply eqb_eq in Eyx. now left.
        -- right. split; [exact H|]. intros [Hx|[->|[]]]; [tauto|].
           assert (eqb x x = true) by now apply eqb_eq. congruence.
Qed.

Lemma first_occ_NoDup l : forall seen, NoDup (first_occ eqb l seen).
Proof.
  induction l as [|y l IH]; intros seen; simpl.
  - constructor.
  - destruct (existsb (eqb y) seen); [apply IH|].
    constructor; [|apply IH].
    rewrite first_occ_In, in_app_iff. simpl. tauto.
Qed.



End FirstOcc.

(** ** Facts about patterns *)

Lemma is_prefix_match_iff name pattern :
  is_prefix_match name pattern = true <-> prefix_matches pattern name.
Proof.
  unfold is_prefix_match, prefix_matches.
  rewrite andb_true_iff, PyStrFacts.endswith_iff. split.
  - intros [[p ->] Hs]. change 2 with (String.length ".*") in Hs.
    rewrite PyStrFacts.slice_to_neg_app in Hs.
    apply PyStrFacts.startswith_iff in Hs. destruct Hs as [r ->].
    now exists p, r.
  - intros (p & r & -> & ->). split; [now exists p|].
    change 2 with (String.length ".*").
    rewrite PyStrFacts.slice_to_neg_app.
    apply PyStrFacts.startswith_iff. now exists r.
Qed.




(** ** The registry *)

Lemma set_set {V : Type} (d : PyDict.t V) k v v' :
  PyDict.set (PyDict.set d k v) k v' = PyDict.set d k v'.
Proof.
  induction d as [|[k' w] d IH]; simpl.
  - now rewrite String.eqb_refl.
  - destruct (String.eqb k' k) eqn:E; simpl; rewrite E; [reflexivity|].
    now rewrite IH.
Qed.


Lemma exact_callbacks_set_same d k l :
  exact_callbacks (PyDict.set d k l) k = l.
Proof. unfold exact_callbacks. now rewrite PyDictFacts.get_set_same. Qed.

Lemma exact_callbacks_set_other d k q l :
  q <> k -> exact_callbacks (PyDict.set d k l) q = exact_callbacks d q.
Proof.
  intros H. unfold exact_callbacks. now rewrite PyDictFacts.get_set_other.
Qed.

Lemma prefix_callbacks_In d name cb :
  In cb (prefix_callbacks d name) <->
  exists pattern l,
    In (pattern, l) d /\ is_prefix_match name pattern = true /\ In cb l.
Proof.
  induction d as [|[k l] d IH]; simpl.
  - split; [tauto | intros (? & ? & [] & _)].
  - assert (Hcase :
      (if PyStr.endswith k ".*"
       then if PyStr.startswith name (PyStr.slice_to_neg 2 k)
            then l ++ prefix_callbacks d name else prefix_callbacks d name
       else prefix_callbacks d name)
      = (if is_prefix_match name k then l else []) ++ prefix_callbacks d name).
    { unfold is_prefix_match.
      destruct (PyStr.endswith k ".*"),
               (PyStr.startswith name (PyStr.slice_to_neg 2 k)); reflexivity. }
    rewrite Hcase, in_app_iff, IH. split.
    + intros [H|(p & l' & H1 & H2 & H3)].
      * destruct (is_prefix_match name k) eqn:E; [|destruct H].
        exists k, l. auto.
      * exists p, l'. auto.
    + intros (p & l' & [[= -> ->]|H1] & H2 & H3).
      * left. now rewrite H2.
      * right. now exists p, l'.
Qed.


Section CoreBus.

Context {Any Exn Ext : Type}.
Variable run : callback -> event Any -> M Any Exn Ext unit.

Lemma subscribe_eq pattern cb (b : Bus Any Ext) :
  subscribe (Exn := Exn) pattern cb b
  = Returned true
      (set_subscribers
         (PyDict.set (_subscribers b) pattern
                     (exact_callbacks (_subscribers b) pattern ++ [cb])) b).
Proof.
  unfold subscribe, exact_callbacks, PyDict.mem.
  destruct (PyDict.get (_subscribers b) pattern) as [l|] eqn:E.
  - now rewrite E.
  - now rewrite PyDictFacts.get_set_same, set_set.
Qed.



(** *** The dispatch loop *)

Lemma invoke_all_returns ev cbs :
  (forall cb, In cb cbs -> returns_normally run cb) ->
  forall seen (b : Bus Any Ext),
  exists b',
    invoke_all run ev cbs seen b
    = Returned (seen ++ first_occ Nat.eqb cbs seen) b' /\
    calls b' = calls b ++ map (fun cb => (cb, ev)) (first_occ Nat.eqb cbs seen).
Proof.
  induction cbs as [|cb cbs IH]; intros Hcbs seen b; simpl.
  - exists b. now rewrite !app_nil_r.
  - unfold in_seen. destruct (existsb (Nat.eqb cb) seen).
    + apply IH. intros c Hc. apply Hcbs. now right.
    + unfold bind, invoke.
      destruct (Hcbs cb (or_introl eq_refl) ev (record_call cb ev b))
        as (b1 & -> & Hcalls).
      destruct (IH (fun c Hc => Hcbs c (or_intror Hc)) (seen ++ [cb]) b1)
        as (b' & -> & Hcalls').
      exists b'. split.
      * now rewrite <- app_assoc.
      * rewrite Hcalls', Hcalls. simpl. now rewrite <- app_assoc.
Qed.

Lemma dispatch_returns ev (b : Bus Any Ext) :
  (forall cb, In cb (dispatch_order (_subscribers b) (event_name ev)) ->
              returns_normally run cb) ->
  exists b',
    _dispatch_event run ev b
    = Returned (Nat.ltb 0 (length (dispatch_order (_subscribers b)
                                                  (event_name ev)))) b' /\
    calls b' = calls b ++ calls_for (_subscribers b) ev.
Proof.
  intros H. unfold _dispatch_event, bind.
  destruct (invoke_all_returns ev
              (exact_callbacks (_subscribers b) (event_name ev)
               ++ prefix_callbacks (_subscribers b) (event_name ev))) with
    (seen := @nil callback) (b := b) as (b' & -> & Hcalls).
  - intros cb Hcb.
    destruct (in_dec Nat.eq_dec cb
                (dispatch_order (_subscribers b) (event_name ev))) as [Hin|Hn].
    + now apply H.
    + exfalso. apply Hn. unfold dispatch_order.
      apply (first_occ_In _ Nat.eqb_eq). tauto.
  - exists b'. split; [reflexivity | exact Hcalls].
Qed.

End CoreBus.

(** ** The order of a dispatch *)

Lemma dispatch_order_In d name cb :
  In cb (dispatch_order d name) <->
  In cb (exact_callbacks d name) \/ In cb (prefix_callbacks d name).
Proof.
  unfold dispatch_order. rewrite (first_occ_In _ Nat.eqb_eq), in_app_iff.
  simpl. tauto.
Qed.

Lemma dispatch_order_NoDup d name : NoDup (dispatch_order d name).
Proof. apply (first_occ_NoDup _ Nat.eqb_eq). Qed.


Lemma count_either (l : list callback) k1 k2 :
  length (filter (fun c => Nat.eqb c k1 || Nat.eqb c k2) l)
  = if Nat.eqb k1 k2 then count_occ Nat.eq_dec l k1
    else count_occ Nat.eq_dec l k1 + count_occ Nat.eq_dec l k2.
Proof.
  induction l as [|c l IH]; simpl.
  - now destruct (Nat.eqb k1 k2).
  - destruct (Nat.eq_dec c k1) as [E1|E1], (Nat.eq_dec c k2) as [E2|E2];
      destruct (Nat.eqb_spec c k1), (Nat.eqb_spec c k2); try contradiction;
      simpl; rewrite IH; destruct (Nat.eqb_spec k1 k2); subst;
      try contradiction; try reflexivity; try lia.
Qed.

(** ** Claims about the core bus *)

Section CoreClaims.

Context {Any Exn Ext : Type}.
Variable run : callback -> event Any -> M Any Exn Ext unit.


Lemma bind_raised {A B : Type} (m : M Any Exn Ext A)
      (k : A -> M Any Exn Ext B) b e b' :
  m b = Raised e b' -> bind m k b = Raised e b'.
Proof. unfold bind. now intros ->. Qed.

Lemma bind_returned {A B : Type} (m : M Any Exn Ext A)
      (k : A -> M Any Exn Ext B) b a b' :
  m b = Returned a b' -> bind m k b = k a b'.
Proof. unfold bind. now intros ->. Qed.

Lemma invoke_all_raises ev e cbs :
  forall seen (b : Bus Any Ext) pre cb post,
    first_occ Nat.eqb cbs seen = pre ++ cb :: post ->
    (forall c, In c pre -> returns_normally run c) ->
    raises run cb e ->
    exists b',
      invoke_all run ev cbs seen b = Raised e b' /\
      calls b' = calls b ++ map (fun c => (c, ev)) (pre ++ [cb]).
Proof.
  induction cbs as [|c cbs IH]; intros seen b pre cb post Hocc Hpre Hcb;
    simpl in *.
  - now destruct pre.
  - unfold in_seen. destruct (existsb (Nat.eqb c) seen).
    + now apply (IH seen b pre cb post).
    + unfold bind, invoke. destruct pre as [|c' pre]; simpl in Hocc.
      * injection Hocc as -> _.
        destruct (Hcb ev (record_call cb ev b)) as (b' & -> & Hcalls).
        exists b'. split; [reflexivity|]. now rewrite Hcalls.
      * injection Hocc as <- Hocc.
        destruct (Hpre c (or_introl eq_refl) ev (record_call c ev b))
          as (b1 & -> & Hcalls).
        cbv beta iota.
        destruct (IH (seen ++ [c]) b1 pre cb post Hocc
                     (fun x Hx => Hpre x (or_intror Hx)) Hcb)
          as (b' & Hrun & Hcalls').
        exists b'. split; [exact Hrun|].
        rewrite Hcalls', Hcalls. simpl. now rewrite <- app_assoc.
Qed.

(** C7. When the callbacks that a dispatch pass would invoke are
    [pre ++ cb :: post], those of [pre] return and [cb] raises [e], then
    [publish] raises [e] to its caller, having invoked [pre] and [cb] and
    none of the later callbacks [post]. *)
Theorem C7_exception_propagates ev (b : Bus Any Ext) pre cb post e :
  dispatch_order (_subscribers b) (event_name ev) = pre ++ cb :: post ->
  (forall c, In c pre -> returns_normally run c) ->
  raises run cb e ->
  exists b',
    publish run ev b = Raised e b' /\
    calls b' = calls b ++ map (fun c => (c, ev)) (pre ++ [cb]) /\
    forall c, In c post -> ~ In c (pre ++ [cb]).
Proof.
  intros Horder Hpre Hcb.
  destruct (invoke_all_raises ev e _ [] b pre cb post Horder Hpre Hcb)
    as (b' & Hrun & Hcalls).
  exists b'. split; [|split; [exact Hcalls|]].
  - unfold publish, _dispatch_event. now apply bind_raised.
  - pose proof (dispatch_order_NoDup (_subscribers b) (event_name ev)) as Hnd.
    rewrite Horder in Hnd. intros c Hpost Hin.
    apply in_app_iff in Hin. destruct Hin as [Hin|[->|[]]].
    + apply NoDup_app_remove_r in Hnd as Hnd'.
      assert (Hdisj : forall x, In x pre -> ~ In x (cb :: post)).
      { clear -Hnd. induction pre as [|y pre IH]; [tauto|].
        simpl in Hnd. inversion Hnd as [|? ? Hy Hnd']; subst.
        intros x [->|Hx] Hx'.
        - apply Hy. apply in_app_iff. now right.
        - now apply (IH Hnd' x). }
      apply (Hdisj c Hin). now right.
    + apply NoDup_remove_2 in Hnd. apply Hnd. apply in_app_iff. now right.
Qed.

(** C8. [unsubscribe] returns [true] exactly when the callback is in the
    list registered under exactly that pattern, and then removes its first
    occurrence there; otherwise it returns [false] and leaves the bus as it
    was. The lists of the other patterns and the order of the keys never
    change. *)
Theorem C8_unsubscribe_first_occurrence pattern cb (b : Bus Any Ext) :
  exists r b',
    unsubscribe (Exn := Exn) pattern cb b = Returned r b' /\
    (r = true <->
     exists l, PyDict.get (_subscribers b) pattern = Some l /\ In cb l) /\
    (r = false <->
     PyDict.get (_subscribers b) pattern = None \/
     exists l, PyDict.get (_subscribers b) pattern = Some l /\ ~ In cb l) /\
    (r = true ->
     exists pre post,
       PyDict.get (_subscribers b) pattern = Some (pre ++ cb :: post) /\
       ~ In cb pre /\
       PyDict.get (_subscribers b') pattern = Some (pre ++ post)) /\
    (forall q, q <> pattern ->
               PyDict.get (_subscribers b') q = PyDict.get (_subscribers b) q) /\
    PyDict.keys (_subscribers b') = PyDict.keys (_subscribers b) /\
    (r = false -> b' = b) /\
    _buffer b' = _buffer b /\ calls b' = calls b /\ world b' = world b.
Proof.
  unfold unsubscribe.
  destruct (PyDict.get (_subscribers b) pattern) as [l|] eqn:Hget.
  - destruct (list_remove cb l) as [l'|] eqn:Hrem.
    + apply list_remove_Some in Hrem.
      destruct Hrem as (pre & post & -> & Hpre & ->).
      eexists _, _. split; [reflexivity|]. simpl. repeat split.
      * intros _. eexists. split; [reflexivity|].
        apply in_app_iff. right. now left.
      * discriminate.
      * intros [H|(l & [= <-] & H)]; [discriminate|].
        exfalso. apply H. apply in_app_iff. right. now left.
      * intros _. exists pre, post. split; [reflexivity|]. split; [exact Hpre|].
        apply PyDictFacts.get_set_same.
      * intros q Hq. now apply PyDictFacts.get_set_other.
      * rewrite PyDictFacts.keys_set. unfold PyDict.mem. rewrite Hget.
        apply app_nil_r.
      * discriminate.
    + apply list_remove_None in Hrem.
      exists false, b. split; [reflexivity|]. repeat split; try discriminate.
      * intros (l0 & [= <-] & H). contradiction.
      * intros _. right. now exists l.
  - exists false, b. split; [reflexivity|]. repeat split; try discriminate.
    + intros (l0 & H & _). discriminate.
    + intros _. now left.
Qed.

(** C9. What decides is the equality of callbacks, not the identity of
    the objects. Take two callable objects registered under patterns that
    match the event, [o1] under [p1] and [o2] under [p2]. A publish invokes
    the callback of each exactly once: when the two objects are equal
    callbacks this is one invocation, whether or not they are one object,
    and when they are unequal callbacks it is two. Unsubscribing [o1] from
    [p1] removes the first registration there that equals it, whichever
    object made it, and leaves an unequal [o2] registered under [p2]. *)
Theorem C9_equality_decides ev (b : Bus Any Ext) p1 p2 l1 l2
        (o1 o2 : pyobject) :
  PyDict.get (_subscribers b) p1 = Some l1 -> In (as_callback o1) l1 ->
  PyDict.get (_subscribers b) p2 = Some l2 -> In (as_callback o2) l2 ->
  matches p1 (event_name ev) -> matches p2 (event_name ev) ->
  (forall c, In c (dispatch_order (_subscribers b) (event_name ev)) ->
             returns_normally run c) ->
  exists invoked r b',
    publish run ev b = Returned r b' /\
    calls b' = calls b ++ map (fun c => (c, ev)) invoked /\
    count_occ Nat.eq_dec invoked (as_callback o1) = 1 /\
    count_occ Nat.eq_dec invoked (as_callback o2) = 1 /\
    length (filter (fun c => Nat.eqb c (as_callback o1)
                             || Nat.eqb c (as_callback o2)) invoked)
    = (if Nat.eqb (as_callback o1) (as_callback o2) then 1 else 2) /\
    exists pre post b'',
      l1 = pre ++ as_callback o1 :: post /\
      ~ In (as_callback o1) pre /\
      unsubscribe (Exn := Exn) p1 (as_callback o1) b = Returned true b'' /\
      PyDict.get (_subscribers b'') p1 = Some (pre ++ post) /\
      (as_callback o1 <> as_callback o2 ->
       In (as_callback o2) (exact_callbacks (_subscribers b'') p2)).
Proof.
  destruct o1 as [id1 c1], o2 as [id2 c2]. simpl.
  intros Hg1 Hc1 Hg2 Hc2 Hm1 Hm2 Hret.
  assert (Hin : forall p l c,
             PyDict.get (_subscribers b) p = Some l -> In c l ->
             matches p (event_name ev) ->
             In c (dispatch_order (_subscribers b) (event_name ev))).
  { intros p l c Hg Hc [->|Hm]; apply dispatch_order_In.
    - left. unfold exact_callbacks. now rewrite Hg.
    - right. apply prefix_callbacks_In. exists p, l.
      split; [now apply PyDictFacts.get_In|].
      split; [now apply is_prefix_match_iff | exact Hc]. }
  destruct (dispatch_returns run ev b Hret) as (b' & Hd & Hcalls).
  exists (dispatch_order (_subscribers b) (event_name ev)).
  eexists _, b'. split; [exact Hd|]. split; [exact Hcalls|].
  pose proof (dispatch_order_NoDup (_subscribers b) (event_name ev)) as Hnd.
  rewrite (NoDup_count_occ' Nat.eq_dec) in Hnd.
  pose proof (Hnd c1 (Hin p1 l1 c1 Hg1 Hc1 Hm1)) as Hn1.
  pose proof (Hnd c2 (Hin p2 l2 c2 Hg2 Hc2 Hm2)) as Hn2.
  split; [exact Hn1|]. split; [exact Hn2|]. split.
  { rewrite count_either, Hn1, Hn2. now destruct (Nat.eqb c1 c2). }
  unfold unsubscribe. rewrite Hg1.
  destruct (list_remove c1 l1) as [l'|] eqn:Hrem.
  - apply list_remove_Some in Hrem.
    destruct Hrem as (pre & post & -> & Hpre & ->).
    exists pre, post. eexists. split; [reflexivity|]. split; [exact Hpre|].
    split; [reflexivity|]. simpl.
    split; [apply PyDictFacts.get_set_same|]. intros Hne.
    destruct (String.eqb p2 p1) eqn:E.
    + apply String.eqb_eq in E. subst p2.
      rewrite exact_callbacks_set_same. rewrite Hg1 in Hg2.
      injection Hg2 as <-. apply in_app_iff in Hc2. apply in_app_iff.
      destruct Hc2 as [H|[H|H]]; [now left | congruence | now right].
    + apply String.eqb_neq in E.
      rewrite exact_callbacks_set_other by exact E.
      unfold exact_callbacks. now rewrite Hg2.
  - apply list_remove_None in Hrem. contradiction.
Qed.

End CoreClaims.

(** ** The buffered bus *)

Section BufferedFacts.

Context {Any Exn Ext : Type}.
Variable run : callback -> event Any -> M Any Exn Ext unit.

(** *** Invariants that the callbacks maintain are maintained by a pass *)

Section Invariant.

Variable P : Bus Any Ext -> Prop.
Hypothesis P_run : forall cb ev b, P b -> P (final (run cb ev b)).
Hypothesis P_record : forall cb ev b, P b -> P (record_call cb ev b).

Lemma invoke_all_inv ev cbs :
  forall seen b, P b -> P (final (invoke_all run ev cbs seen b)).
Proof.
  induction cbs as [|cb cbs IH]; intros seen b Hb; simpl; [exact Hb|].
  destruct (in_seen cb seen); [now apply IH|].
  unfold bind, invoke.
  pose proof (P_run cb ev _ (P_record cb ev b Hb)) as H.
  destruct (run cb ev (record_call cb ev b)) as [[] b1|e b1]; simpl in H.
  - now apply IH.
  - exact H.
Qed.

Lemma dispatch_inv ev b : P b -> P (final (_dispatch_event run ev b)).
Proof.
  intros Hb. unfold _dispatch_event, bind.
  pose proof (invoke_all_inv ev
                (exact_callbacks (_subscribers b) (event_name ev)
                 ++ prefix_callbacks (_subscribers b) (event_name ev))
                [] b Hb) as H.
  destruct (invoke_all run ev _ [] b); exact H.
Qed.

End Invariant.

(** *** The deque *)

Lemma deque_append_length C (q : list (event Any)) x :
  length q <= C -> length (deque_append C q x) <= C.
Proof.
  intros H. unfold deque_append.
  destruct (Nat.ltb C (length (q ++ [x]))) eqn:E.
  - destruct q; simpl in *; [lia|]. rewrite length_app in *. simpl in *. lia.
  - apply Nat.ltb_ge in E. exact E.
Qed.

Lemma deque_append_room C (q : list (event Any)) x :
  length q < C -> deque_append C q x = q ++ [x].
Proof.
  intros H. unfold deque_append.
  destruct (Nat.ltb C (length (q ++ [x]))) eqn:E; [|reflexivity].
  apply Nat.ltb_lt in E. rewrite length_app in E. simpl in E. lia.
Qed.

Lemma deque_append_full C (q : list (event Any)) x :
  length q = C -> deque_append C q x = tl (q ++ [x]).
Proof.
  intros H. unfold deque_append.
  destruct (Nat.ltb C (length (q ++ [x]))) eqn:E; [reflexivity|].
  apply Nat.ltb_ge in E. rewrite length_app in E. simpl in E. lia.
Qed.

Lemma fold_deque_append C (evs : list (event Any)) :
  forall q, length q <= C ->
            fold_left (deque_append C) evs q
            = skipn (length q + length evs - C) (q ++ evs).
Proof.
  induction evs as [|x evs IH]; intros q Hq; simpl.
  - replace (length q + 0 - C) with 0 by lia. now rewrite app_nil_r.
  - rewrite IH by now apply deque_append_length.
    destruct (Nat.eq_dec (length q) C) as [E|E].
    + rewrite deque_append_full by exact E.
      assert (Hlen : length (tl (q ++ [x])) = C).
      { destruct q; simpl in *; [now subst|].
        rewrite length_app. simpl. lia. }
      rewrite Hlen.
      replace (C + length evs - C) with (length evs) by lia.
      replace (length q + S (length evs) - C) with (S (length evs)) by lia.
      destruct q; simpl; [reflexivity|]. now rewrite <- app_assoc.
    + rewrite deque_append_room by lia.
      rewrite length_app, <- app_assoc. simpl. f_equal. lia.
Qed.

(** *** Passes over quiet callbacks *)

Lemma invoke_all_quiet ev cbs :
  forall seen (b : Bus Any Ext),
    (forall cb, In cb (first_occ Nat.eqb cbs seen) -> quiet run cb) ->
    exists w,
      invoke_all run ev cbs seen b
      = Returned (seen ++ first_occ Nat.eqb cbs seen)
          (mkBus (_subscribers b) (_buffer b) (_buffer_max_size b)
             (calls b ++ map (fun cb => (cb, ev)) (first_occ Nat.eqb cbs seen))
             w).
Proof.
  induction cbs as [|cb cbs IH]; intros seen b Hq; simpl in *.
  - exists (world b). unfold ret. rewrite !app_nil_r. now destruct b.
  - unfold in_seen. destruct (existsb (Nat.eqb cb) seen).
    + now apply IH.
    + unfold bind, invoke.
      destruct (Hq cb (or_introl eq_refl) ev (record_call cb ev b))
        as (w1 & ->). cbv beta iota.
      destruct (IH (seen ++ [cb]) (set_world w1 (record_call cb ev b))
                   (fun c Hc => Hq c (or_intror Hc))) as (w & Hrun).
      exists w. simpl in Hrun. rewrite <- !app_assoc in Hrun. exact Hrun.
Qed.

Lemma dispatch_quiet ev (b : Bus Any Ext) :
  (forall cb, In cb (dispatch_order (_subscribers b) (event_name ev)) ->
              quiet run cb) ->
  exists w,
    _dispatch_event run ev b
    = Returned (deliverable (_subscribers b) ev)
        (mkBus (_subscribers b) (_buffer b) (_buffer_max_size b)
               (calls b ++ calls_for (_subscribers b) ev) w).
Proof.
  intros Hq.
  destruct (invoke_all_quiet ev _ [] b Hq) as (w & Hrun).
  exists w. unfold _dispatch_event.
  rewrite (bind_returned _ _ _ _ _ Hrun). unfold ret, deliverable, calls_for.
  fold (dispatch_order (_subscribers b) (event_name ev)).
  now destruct (dispatch_order (_subscribers b) (event_name ev)).
Qed.

(** One pass of the flush loop over the first [length pre] entries of the
    buffer, when the callbacks it reaches are quiet and the buffer is within
    its capacity: the entries of [pre] that survive go to the back, in their
    order, behind the entries [rest] that the pass does not reach; the count
    grows by the number of entries that do not survive; the entries that are
    not trimmed are dispatched in buffer order. *)
Lemma flush_loop_quiet trim_prefix pre :
  forall rest acc (b : Bus Any Ext),
    _buffer b = pre ++ rest ->
    length (_buffer b) <= _buffer_max_size b ->
    (forall ev cb,
        In ev pre -> trims trim_prefix ev = false ->
        In cb (dispatch_order (_subscribers b) (event_name ev)) ->
        quiet run cb) ->
    exists w,
      flush_loop run trim_prefix (length pre) acc b
      = Returned
          (acc + length (filter (fun ev => negb (survives trim_prefix
                                                   (_subscribers b) ev)) pre))
          (mkBus (_subscribers b)
                 (rest ++ filter (survives trim_prefix (_subscribers b)) pre)
                 (_buffer_max_size b)
                 (calls b ++ flat_map (calls_for (_subscribers b))
                                (filter (fun ev => negb (trims trim_prefix ev))
                                        pre))
                 w).
Proof.
  induction pre as [|ev pre IH]; intros rest acc b Hbuf Hcap Hq; simpl.
  - exists (world b). unfold ret. rewrite !app_nil_r, Nat.add_0_r.
    simpl in Hbuf. rewrite <- Hbuf. now destruct b.
  - assert (Hs : survives trim_prefix (_subscribers b) ev
                 = negb (trims trim_prefix ev)
                   && negb (deliverable (_subscribers b) ev)) by reflexivity.
    rewrite Hbuf, !Hs. simpl.
    destruct (trims trim_prefix ev) eqn:Etrim; simpl.
    + destruct (IH rest (acc + 1) (set_buffer (pre ++ rest) b)) as (w & Hrun).
      * reflexivity.
      * simpl. rewrite Hbuf in Hcap. simpl in Hcap. lia.
      * intros ev' cb Hin. apply Hq. now right.
      * exists w. simpl in Hrun. rewrite Hrun. f_equal. lia.
    + destruct (dispatch_quiet ev (set_buffer (pre ++ rest) b)) as (w1 & Hd).
      { simpl. intros cb. apply Hq; [now left | exact Etrim]. }
      rewrite (bind_returned _ _ _ _ _ Hd). simpl.
      destruct (deliverable (_subscribers b) ev) eqn:Edel; simpl.
      * match goal with
        | |- context [flush_loop run trim_prefix (length pre) ?a ?s] =>
            destruct (IH rest a s) as (w & Hrun)
        end.
        -- reflexivity.
        -- simpl. rewrite Hbuf in Hcap. simpl in Hcap. lia.
        -- simpl. intros ev' cb Hin. apply Hq. now right.
        -- exists w. simpl in Hrun. rewrite Hrun. f_equal; [lia|].
           now rewrite <- app_assoc.
      * unfold bind, buffer_append, modify. simpl.
        rewrite Hbuf in Hcap. simpl in Hcap.
        rewrite deque_append_room by lia.
        match goal with
        | |- context [flush_loop run trim_prefix (length pre) ?a ?s] =>
            destruct (IH (rest ++ [ev]) a s) as (w & Hrun)
        end.
        -- simpl. now rewrite app_assoc.
        -- simpl. rewrite !length_app in *. simpl. lia.
        -- simpl. intros ev' cb Hin. apply Hq. now right.
        -- exists w. simpl in Hrun. rewrite Hrun. f_equal.
           unfold calls_for at 2. unfold deliverable in Edel.
           destruct (dispatch_order (_subscribers b) (event_name ev));
             [|discriminate].
           simpl. now rewrite <- !app_assoc.
Qed.

Lemma flush_buffer_quiet trim_prefix (b : Bus Any Ext) :
  length (_buffer b) <= _buffer_max_size b ->
  (forall ev cb,
      In ev (_buffer b) -> trims trim_prefix ev = false ->
      In cb (dispatch_order (_subscribers b) (event_name ev)) ->
      quiet run cb) ->
  exists w,
    _flush_buffer run trim_prefix b
    = Returned
        (length (filter (fun ev => negb (survives trim_prefix
                                           (_subscribers b) ev)) (_buffer b)))
        (mkBus (_subscribers b)
               (filter (survives trim_prefix (_subscribers b)) (_buffer b))
               (_buffer_max_size b)
               (calls b ++ flat_map (calls_for (_subscribers b))
                              (filter (fun ev => negb (trims trim_prefix ev))
                                      (_buffer b)))
               w).
Proof.
  intros Hcap Hq. unfold _flush_buffer.
  destruct (flush_loop_quiet trim_prefix (_buffer b) [] 0 b) as (w & Hrun).
  - now rewrite app_nil_r.
  - exact Hcap.
  - exact Hq.
  - exists w. exact Hrun.
Qed.

Lemma filter_all {A : Type} (f : A -> bool) l :
  (forall x, In x l -> f x = true) -> filter f l = l.
Proof.
  induction l as [|x l IH]; intros H; simpl; [reflexivity|].
  rewrite (H x) by now left. f_equal. apply IH. intros y Hy. apply H.
  now right.
Qed.

Lemma deque_append_In C (q : list (event Any)) x y :
  In y (deque_append C q x) -> In y q \/ y = x.
Proof.
  unfold deque_append. intros H.
  assert (H' : In y (q ++ [x])).
  { destruct (Nat.ltb C (length (q ++ [x]))); [|exact H].
    destruct (q ++ [x]); [exact H | now right]. }
  apply in_app_iff in H'. simpl in H'. intuition.
Qed.

Lemma deque_append_last C (q : list (event Any)) x :
  length q <= C -> 0 < C -> In x (deque_append C q x).
Proof.
  intros Hq HC. destruct (Nat.eq_dec (length q) C) as [E|E].
  - rewrite deque_append_full by exact E.
    destruct q as [|y q]; simpl in *; [lia|].
    apply in_app_iff. right. now left.
  - rewrite deque_append_room by lia. apply in_app_iff. right. now left.
Qed.

Lemma subscribed_dispatch_order (d : PyDict.t (list callback)) pattern cb name :
  matches pattern name ->
  In cb (dispatch_order
           (PyDict.set d pattern (exact_callbacks d pattern ++ [cb])) name).
Proof.
  intros [->|Hm]; apply dispatch_order_In.
  - left. rewrite exact_callbacks_set_same. apply in_app_iff. right. now left.
  - right. apply prefix_callbacks_In.
    exists pattern, (exact_callbacks d pattern ++ [cb]).
    split; [apply PyDictFacts.get_In, PyDictFacts.get_set_same|].
    split; [now apply is_prefix_match_iff|].
    apply in_app_iff. right. now left.
Qed.

(** *** Claims about the buffered bus *)

Lemma buffered_publish_returned ev (b : Bus Any Ext) r b' :
  BufferedEventBus_publish run ev b = Returned r b' <->
  exists b1 n,
    publish run ev b = Returned r b1 /\
    _flush_buffer run None
      (if r then b1
       else set_buffer
              (deque_append (_buffer_max_size b1) (_buffer b1) ev) b1)
    = Returned n b'.
Proof.
  unfold BufferedEventBus_publish, bind. split.
  - destruct (publish run ev b) as [d b1|e b1]; [|discriminate].
    destruct d; simpl.
    + destruct (_flush_buffer run None b1) as [n b2|e b2] eqn:E;
        [|discriminate].
      intros [= <- <-]. exists b1, n. now rewrite E.
    + unfold buffer_append, modify.
      destruct (_flush_buffer run None _) as [n b2|e b2] eqn:E;
        [|discriminate].
      intros [= <- <-]. exists b1, n. now rewrite E.
  - intros (b1 & n & -> & Hflush). destruct r; simpl.
    + now rewrite Hflush.
    + unfold buffer_append, modify. now rewrite Hflush.
Qed.

(** C10. When the callbacks leave the buffer alone and the initial dispatch
    of a buffered publish raises [e], the publish raises [e] from the very
    bus that the dispatch left: nothing was appended to the buffer, no
    flush pass ran, and the buffer is the one from before the call. *)
Theorem C10_raise_leaves_buffer ev (b : Bus Any Ext) e b1 :
  (forall cb ev' b0, _buffer (final (run cb ev' b0)) = _buffer b0) ->
  publish run ev b = Raised e b1 ->
  BufferedEventBus_publish run ev b = Raised e b1 /\ _buffer b1 = _buffer b.
Proof.
  intros Hbuf Hraise. split.
  - unfold BufferedEventBus_publish. now apply bind_raised.
  - pose proof (dispatch_inv (fun x => _buffer x = _buffer b)) as H.
    specialize (H (fun cb ev' b0 Hb => eq_trans (Hbuf cb ev' b0) Hb)).
    specialize (H (fun cb ev' b0 Hb => Hb) ev b eq_refl).
    unfold publish in Hraise. now rewrite Hraise in H.
Qed.

Lemma undeliverable_no_callbacks (d : PyDict.t (list callback))
      (ev : event Any) :
  deliverable d ev = false -> dispatch_order d (event_name ev) = [].
Proof.
  unfold deliverable. now destruct (dispatch_order d (event_name ev)).
Qed.

Lemma deliverable_In (d : PyDict.t (list callback)) (ev : event Any) cb :
  In cb (dispatch_order d (event_name ev)) -> deliverable d ev = true.
Proof.
  unfold deliverable. now destruct (dispatch_order d (event_name ev)).
Qed.


(** C2. With quiet callbacks and a buffer within its capacity, a publish
    on the buffered bus goes through these steps. The core's publish runs
    first and returns [r], which is [true] exactly when somebody is
    subscribed to the event; it has invoked those subscribers and left the
    buffer alone. The buffer [q] that the flush then starts from is the old
    one when [r] is [true], and when [r] is [false] the old one with the
    event added at the back, the oldest entry dropped if that exceeds the
    capacity. The flush runs in both cases: it dispatches the events of [q]
    and keeps the undeliverable ones. The call returns that same [r], and
    an undelivered event is in the buffer afterwards when the capacity is
    not zero. *)
Theorem C2_buffered_publish ev (b : Bus Any Ext) :
  length (_buffer b) <= _buffer_max_size b ->
  (forall c, quiet run c) ->
  exists r b1 q n b',
    publish run ev b = Returned r b1 /\
    (r = true <-> dispatch_order (_subscribers b) (event_name ev) <> []) /\
    calls b1 = calls b ++ calls_for (_subscribers b) ev /\
    _buffer b1 = _buffer b /\
    q = (if r then _buffer b
         else skipn (length (_buffer b) + 1 - _buffer_max_size b)
                    (_buffer b ++ [ev])) /\
    _flush_buffer run None (set_buffer q b1) = Returned n b' /\
    _buffer b' = filter (fun x => negb (deliverable (_subscribers b) x)) q /\
    calls b' = calls b1 ++ flat_map (calls_for (_subscribers b)) q /\
    BufferedEventBus_publish run ev b = Returned r b' /\
    (r = false -> 0 < _buffer_max_size b -> In ev (_buffer b')).
Proof.
  intros Hcap Hq.
  destruct (dispatch_quiet ev b (fun c _ => Hq c)) as (w1 & Hd).
  assert (Hdel : deliverable (_subscribers b) ev = true <->
                 dispatch_order (_subscribers b) (event_name ev) <> []).
  { unfold deliverable.
    destruct (dispatch_order (_subscribers b) (event_name ev));
      split; congruence. }
  assert (Hall : forall l : list (event Any),
             filter (fun x => negb (trims None x)) l = l).
  { intros l. apply filter_all. reflexivity. }
  destruct (deliverable (_subscribers b) ev) eqn:Hr.
  - match type of Hd with _ = Returned _ ?s => set (b1 := s) in * end.
    destruct (flush_buffer_quiet None b1 Hcap) as (w2 & Hf).
    { intros ? c _ _ _. apply Hq. }
    simpl in Hf. rewrite Hall in Hf.
    exists true, b1, (_buffer b). eexists _, _.
    split; [exact Hd|]. split; [exact Hdel|].
    split; [reflexivity|]. split; [reflexivity|]. split; [reflexivity|].
    split; [exact Hf|]. split; [reflexivity|]. split; [reflexivity|].
    split; [|discriminate].
    apply buffered_publish_returned. exists b1. eexists.
    split; [exact Hd | exact Hf].
  - match type of Hd with _ = Returned _ ?s => set (b1 := s) in * end.
    assert (Happend : deque_append (_buffer_max_size b) (_buffer b) ev
                      = skipn (length (_buffer b) + 1 - _buffer_max_size b)
                              (_buffer b ++ [ev])).
    { exact (fold_deque_append (_buffer_max_size b) [ev] (_buffer b) Hcap). }
    destruct (flush_buffer_quiet None
                (set_buffer
                   (deque_append (_buffer_max_size b1) (_buffer b1) ev) b1))
      as (w2 & Hf).
    { simpl. now apply deque_append_length. }
    { intros ? c _ _ _. apply Hq. }
    simpl in Hf. rewrite Hall in Hf.
    exists false, b1,
      (skipn (length (_buffer b) + 1 - _buffer_max_size b) (_buffer b ++ [ev])).
    rewrite <- Happend. eexists _, _.
    split; [exact Hd|]. split; [exact Hdel|].
    split; [reflexivity|]. split; [reflexivity|]. split; [reflexivity|].
    split; [exact Hf|]. split; [reflexivity|]. split; [reflexivity|].
    split.
    + apply buffered_publish_returned. exists b1. eexists.
      split; [exact Hd | exact Hf].
    + intros _ HC. simpl. apply filter_In. split.
      * now apply deque_append_last.
      * unfold survives. simpl. now rewrite Hr.
Qed.

(** *** The capacity of the buffer *)

Section Capacity.

Variable C : nat.
Hypothesis cap_run :
  forall cb ev b, within_capacity C b -> within_capacity C (final (run cb ev b)).

Lemma cap_record cb ev (b : Bus Any Ext) :
  within_capacity C b -> within_capacity C (record_call cb ev b).
Proof. intros H. exact H. Qed.

Lemma cap_dispatch ev (b : Bus Any Ext) :
  within_capacity C b -> within_capacity C (final (_dispatch_event run ev b)).
Proof. apply dispatch_inv; [exact cap_run | exact cap_record]. Qed.

Lemma cap_pop ev rest (b : Bus Any Ext) :
  within_capacity C b -> _buffer b = ev :: rest ->
  within_capacity C (set_buffer rest b).
Proof.
  intros [Hmax Hlen] Hbuf. split; [exact Hmax|]. simpl.
  rewrite Hbuf in Hlen. simpl in Hlen. lia.
Qed.

Lemma cap_append ev (b : Bus Any Ext) :
  within_capacity C b ->
  within_capacity C
    (set_buffer (deque_append (_buffer_max_size b) (_buffer b) ev) b).
Proof.
  intros [Hmax Hlen]. split; [exact Hmax|]. simpl. rewrite Hmax.
  now apply deque_append_length.
Qed.

Lemma cap_flush_loop trim_prefix n :
  forall acc (b : Bus Any Ext),
    within_capacity C b ->
    within_capacity C (final (flush_loop run trim_prefix n acc b)).
Proof.
  induction n as [|n IH]; intros acc b Hb; simpl; [exact Hb|].
  destruct (_buffer b) as [|ev rest] eqn:Hbuf; [exact Hb|].
  pose proof (cap_pop ev rest b Hb Hbuf) as Hpop.
  destruct (trims trim_prefix ev); [now apply IH|].
  unfold bind.
  pose proof (cap_dispatch ev _ Hpop) as Hd.
  destruct (_dispatch_event run ev (set_buffer rest b)) as [[] b1|e b1];
    simpl in *.
  - now apply IH.
  - unfold buffer_append, modify. apply IH. now apply cap_append.
  - exact Hd.
Qed.

Lemma cap_flush trim_prefix (b : Bus Any Ext) :
  within_capacity C b ->
  within_capacity C (final (_flush_buffer run trim_prefix b)).
Proof. apply cap_flush_loop. Qed.

Lemma cap_run_op o (b : Bus Any Ext) :
  within_capacity C b -> within_capacity C (run_op run o b).
Proof.
  intros Hb. destruct o as [pattern cb|pattern cb|ev|prefix]; simpl.
  - unfold BufferedEventBus_subscribe, bind. rewrite subscribe_eq.
    match goal with
    | |- context [_flush_buffer run None ?s] =>
        pose proof (cap_flush None s Hb) as H;
        destruct (_flush_buffer run None s); exact H
    end.
  - unfold unsubscribe.
    destruct (PyDict.get (_subscribers b) pattern) as [l|]; [|exact Hb].
    destruct (list_remove cb l); exact Hb.
  - unfold BufferedEventBus_publish, bind, publish.
    pose proof (cap_dispatch ev b Hb) as Hd.
    destruct (_dispatch_event run ev b) as [[] b1|e b1]; simpl in *.
    + pose proof (cap_flush None b1 Hd) as H.
      destruct (_flush_buffer run None b1); exact H.
    + unfold buffer_append, modify.
      match goal with
      | |- context [_flush_buffer run None ?s] =>
          pose proof (cap_flush None s (cap_append ev b1 Hd)) as H;
          destruct (_flush_buffer run None s); exact H
      end.
    + exact Hd.
  - apply cap_flush. exact Hb.
Qed.

Lemma cap_run_ops ops :
  forall b : Bus Any Ext,
    within_capacity C b -> within_capacity C (run_ops run ops b).
Proof.
  induction ops as [|o ops IH]; intros b Hb; simpl; [exact Hb|].
  apply IH. now apply cap_run_op.
Qed.

End Capacity.

(** Publishing events that nobody receives, on a bus whose buffered events
    nobody receives either: no callback runs, every result is [false] and
    the events go through [deque.append] in publish order. *)
Lemma publish_undeliverable ev (b : Bus Any Ext) :
  length (_buffer b) <= _buffer_max_size b ->
  deliverable (_subscribers b) ev = false ->
  (forall x, In x (_buffer b) -> deliverable (_subscribers b) x = false) ->
  exists b',
    BufferedEventBus_publish run ev b = Returned false b' /\
    _subscribers b' = _subscribers b /\
    _buffer_max_size b' = _buffer_max_size b /\
    _buffer b' = deque_append (_buffer_max_size b) (_buffer b) ev.
Proof.
  intros Hcap Hev Hbuf.
  destruct (dispatch_quiet ev b) as (w1 & Hd).
  { rewrite (undeliverable_no_callbacks _ _ Hev). intros ? []. }
  rewrite Hev in Hd.
  match type of Hd with _ = Returned _ ?s => set (b1 := s) in * end.
  assert (Hall : forall x,
             In x (deque_append (_buffer_max_size b1) (_buffer b1) ev) ->
             deliverable (_subscribers b) x = false).
  { intros x Hx. apply deque_append_In in Hx. destruct Hx as [Hx| ->]; auto. }
  destruct (flush_buffer_quiet None
              (set_buffer (deque_append (_buffer_max_size b1) (_buffer b1) ev)
                          b1)) as (w2 & Hf).
  { simpl. now apply deque_append_length. }
  { simpl. intros x c Hx _ Hc. apply Hall in Hx.
    rewrite (undeliverable_no_callbacks _ _ Hx) in Hc. destruct Hc. }
  eexists. split.
  - apply buffered_publish_returned. eexists b1, _. split; [exact Hd|].
    exact Hf.
  - simpl. repeat split. apply filter_all. intros x Hx.
    unfold survives. simpl. now rewrite (Hall x Hx).
Qed.

Lemma publish_all_undeliverable evs :
  forall b : Bus Any Ext,
    length (_buffer b) <= _buffer_max_size b ->
    (forall x, In x evs -> deliverable (_subscribers b) x = false) ->
    (forall x, In x (_buffer b) -> deliverable (_subscribers b) x = false) ->
    exists b',
      publish_all run evs b = Returned (map (fun _ => false) evs) b' /\
      _buffer b' = fold_left (deque_append (_buffer_max_size b)) evs (_buffer b).
Proof.
  induction evs as [|ev evs IH]; intros b Hcap Hevs Hbuf; simpl.
  - now exists b.
  - destruct (publish_undeliverable ev b Hcap (Hevs ev (or_introl eq_refl)) Hbuf)
      as (b1 & Hp & Hsubs & Hmax & Hb1).
    destruct (IH b1) as (b' & Hrest & Hb').
    + rewrite Hb1, Hmax. now apply deque_append_length.
    + rewrite Hsubs. intros x Hx. apply Hevs. now right.
    + rewrite Hsubs, Hb1. intros x Hx. apply deque_append_In in Hx.
      destruct Hx as [Hx| ->]; [now apply Hbuf | apply Hevs; now left].
    + exists b'. split.
      * rewrite (bind_returned _ _ _ _ _ Hp).
        now rewrite (bind_returned _ _ _ _ _ Hrest).
      * now rewrite Hb', Hb1, Hmax.
Qed.

(** C4. When the callbacks keep the buffer within the capacity [C], so does
    every sequence of operations on a bus constructed with capacity [C];
    appending to a buffer that holds [C] entries drops the oldest one; and
    publishing [C + 1] events that nobody receives on a bus of capacity [C]
    with an empty buffer returns [false] each time and leaves all of them
    but the first in the buffer, in publish order. *)
Theorem C4_buffer_capacity (C : nat) :
  (forall cb ev b,
      within_capacity C b -> within_capacity C (final (run cb ev b))) ->
  (forall ops w,
      length (_buffer (run_ops run ops (BufferedEventBus_init C w))) <= C) /\
  (forall (q : list (event Any)) x,
      length q = C -> deque_append C q x = tl (q ++ [x])) /\
  (forall evs (b : Bus Any Ext),
      length evs = C + 1 ->
      _buffer_max_size b = C -> _buffer b = [] ->
      (forall ev, In ev evs -> deliverable (_subscribers b) ev = false) ->
      exists b',
        publish_all run evs b = Returned (map (fun _ => false) evs) b' /\
        _buffer b' = tl evs /\ length (_buffer b') = C).
Proof.
  intros Hrun. split; [|split].
  - intros ops w. apply (cap_run_ops C Hrun). split; simpl; [reflexivity|lia].
  - intros q x. apply deque_append_full.
  - intros evs b Hlen Hmax Hbuf Hevs.
    destruct (publish_all_undeliverable evs b) as (b' & Hp & Hb').
    + rewrite Hbuf. simpl. lia.
    + exact Hevs.
    + rewrite Hbuf. intros x [].
    + exists b'. split; [exact Hp|].
      rewrite Hb', Hmax, Hbuf, fold_deque_append by (simpl; lia).
      simpl. rewrite Hlen. replace (C + 1 - C) with 1 by lia.
      destruct evs as [|ev evs]; simpl in *; [lia|].
      split; [reflexivity | lia].
Qed.

(** *** What a flush pass does in general, and with quiet callbacks *)

(** Whatever the callbacks do, a pass of [n] iterations ends (the loop is
    structural in [n]) and counts at most [n] removals. *)
Lemma flush_loop_count trim_prefix n :
  forall acc (b : Bus Any Ext) k b',
    flush_loop run trim_prefix n acc b = Returned k b' ->
    acc <= k <= acc + n.
Proof.
  induction n as [|n IH]; intros acc b k b'; simpl.
  - unfold ret. intros [= <- _]. lia.
  - destruct (_buffer b) as [|ev rest]; [intros [= <- _]; lia|].
    destruct (trims trim_prefix ev).
    + intros H. apply IH in H. lia.
    + unfold bind.
      destruct (_dispatch_event run ev (set_buffer rest b)) as [[] b1|e b1];
        simpl; [| |discriminate].
      * intros H. apply IH in H. lia.
      * unfold buffer_append, modify. intros H. apply IH in H. lia.
Qed.

Lemma flush_buffer_count trim_prefix (b : Bus Any Ext) k b' :
  _flush_buffer run trim_prefix b = Returned k b' -> k <= length (_buffer b).
Proof. intros H. apply flush_loop_count in H. lia. Qed.

(** With quiet callbacks, a trim by a non-empty prefix leaves no buffered
    event with that prefix, dispatches none of them, and counts at least
    the events it trimmed. *)
Lemma trim_by_prefix_quiet prefix (b : Bus Any Ext) :
  prefix <> "" ->
  length (_buffer b) <= _buffer_max_size b ->
  (forall c, quiet run c) ->
  exists n b' l,
    trim_by_prefix run prefix b = Returned n b' /\
    (forall ev, In ev (_buffer b') ->
                PyStr.startswith (event_name ev) prefix = false) /\
    length (filter (fun ev => PyStr.startswith (event_name ev) prefix)
                   (_buffer b)) <= n /\
    calls b' = calls b ++ l /\
    (forall cb ev, In (cb, ev) l ->
                   PyStr.startswith (event_name ev) prefix = false).
Proof.
  intros Hp Hcap Hq.
  assert (Htrim : forall ev : event Any,
             trims (Some prefix) ev = PyStr.startswith (event_name ev) prefix).
  { intros ev. unfold trims, PyStr.truthy.
    destruct (String.eqb_spec prefix ""); [contradiction | reflexivity]. }
  destruct (flush_buffer_quiet (Some prefix) b Hcap) as (w & Hf).
  { intros ? c _ _ _. apply Hq. }
  eexists _, _, _. split; [exact Hf|]. simpl. repeat split.
  - intros ev Hev. apply filter_In in Hev. destruct Hev as [_ Hev].
    unfold survives in Hev. rewrite Htrim in Hev.
    now destruct (PyStr.startswith (event_name ev) prefix).
  - clear Hf. induction (_buffer b) as [|ev q IH]; simpl; [lia|].
    simpl in Hcap. unfold survives at 1. rewrite Htrim.
    destruct (PyStr.startswith (event_name ev) prefix); simpl.
    + apply le_n_S. apply IH. lia.
    + destruct (negb (negb (deliverable (_subscribers b) ev))); simpl;
        [apply le_S|]; apply IH; lia.
  - intros cb ev Hin. apply in_flat_map in Hin.
    destruct Hin as (x & Hx & Hin). apply filter_In in Hx.
    destruct Hx as [_ Hx]. change (negb (trims (Some prefix) x) = true) in Hx.
    rewrite Htrim in Hx.
    unfold calls_for in Hin. apply in_map_iff in Hin.
    destruct Hin as (c & [= _ <-] & _).
    now destruct (PyStr.startswith (event_name x) prefix).
Qed.

End BufferedFacts.

(** ** Concrete runs *)

(** C3. A flush pass can dequeue an entry that was enqueued during that very
    pass. Capacity 2, ["A"] and ["B"] buffered, then ["A"] is subscribed by
    a callback that publishes ["X"] and ["Y"]: the pass starts with
    [n = 2]; its first iteration delivers ["A"], whose callback enqueues
    ["X"] and then ["Y"], which evicts ["B"]; its second iteration dequeues
    ["X"] and re-appends it behind ["Y"]. *)
Theorem C3_flush_dequeues_entry_enqueued_during_pass (inner : Table) :
  let b := mkBus [] [named "A"; named "B"] 2 [] tt in
  let s0 := mkBus [("A", [1])] [named "A"; named "B"] 2 [] tt in
  let s1 := mkBus [("A", [1])] [named "X"; named "Y"] 2 [(1, named "A")] tt in
  let s2 := mkBus [("A", [1])] [named "Y"; named "X"] 2 [(1, named "A")] tt in
  (BufferedEventBus_publish (republishing inner) (named "A") ;;;
   BufferedEventBus_publish (republishing inner) (named "B"))
    (fresh 2) = Returned false b /\
  subscribe (Exn := string) "A" 1 b = Returned true s0 /\
  flush_loop (republishing inner) None 1 0 s0 = Returned 1 s1 /\
  flush_loop (republishing inner) None 1 1 s1 = Returned 1 s2 /\
  _flush_buffer (republishing inner) None s0 = Returned 1 s2 /\
  BufferedEventBus_subscribe (republishing inner) "A" 1 b = Returned true s2.
Proof.
  repeat split; vm_compute; reflexivity.
Qed.

(** C5. Trimming by the empty prefix removes nothing, although every event
    name starts with the empty string: the event stays buffered and the
    count is 0. *)
Theorem C5_trim_by_empty_prefix_removes_nothing (run : Table) :
  let b1 := mkBus [] [named "a"] 255 [] tt in
  PyStr.startswith "a" "" = true /\
  BufferedEventBus_publish run (named "a") (fresh 255) = Returned false b1 /\
  trim_by_prefix run "" b1 = Returned 0 b1.
Proof.
  repeat split; vm_compute; reflexivity.
Qed.

(** *** The theorems at concrete inputs *)

Lemma idle_returns cb : returns_normally idle cb.
Proof. intros ev b. exists b. split; reflexivity. Defined.

Lemma idle_quiet cb : quiet idle cb.
Proof. intros ev b. exists (world b). destruct b. reflexivity. Defined.

Lemma tool_pattern_matches : matches "tool.*" "tool.execute".
Proof. right. exists "tool", ".execute". split; reflexivity. Defined.


Lemma C7_witness :
  exists b',
    publish faulty (named "e") (mkBus [("e", [1; 2; 3])] [] 0 [] tt)
    = Raised "boom" b' /\
    calls b' = [(1, named "e"); (2, named "e")].
Proof.
  destruct (C7_exception_propagates faulty (named "e")
              (mkBus [("e", [1; 2; 3])] [] 0 [] tt) [1] 2 [3] "boom")
    as (b' & Hrun & Hcalls & _).
  - reflexivity.
  - intros c [<-|[]] ev b. exists b. split; reflexivity.
  - intros ev b. exists b. split; reflexivity.
  - exists b'. split; [exact Hrun | exact Hcalls].
Defined.

(** Two evaluations of one bound method are not one object, yet a publish
    that matches both registrations invokes the callback once, and a third
    evaluation unsubscribes the registration made with the first. *)
Lemma C9_counterexample :
  object_id method_first <> object_id method_second /\
  (subscribe "tool.execute" (as_callback method_first) ;;;
   subscribe "tool.*" (as_callback method_second) ;;;
   publish idle (named "tool.execute")) (fresh 0)
  = Returned true
      (mkBus [("tool.execute", [7]); ("tool.*", [7])] [] 0
             [(7, named "tool.execute")] tt) /\
  object_id method_first <> object_id method_third /\
  (subscribe "tool.execute" (as_callback method_first) ;;;
   unsubscribe (Exn := string) "tool.execute" (as_callback method_third))
    (fresh 0)
  = Returned true (mkBus [("tool.execute", [])] [] 0 [] tt).
Proof.
  split; [discriminate|]. split; [reflexivity|].
  split; [discriminate | reflexivity].
Qed.

Lemma C9_witness :
  exists invoked b' (b'' : Bus nat unit),
    publish idle (named "tool.execute")
            (mkBus [("tool.*", [7]); ("tool.execute", [7; 8])] [] 0 [] tt)
    = Returned true b' /\
    calls b' = map (fun c => (c, named "tool.execute")) invoked /\
    length (filter (fun c => Nat.eqb c 7 || Nat.eqb c 8) invoked) = 2 /\
    unsubscribe (Exn := string) "tool.*" 7
                (mkBus [("tool.*", [7]); ("tool.execute", [7; 8])] [] 0 [] tt)
    = Returned true b'' /\
    PyDict.get (_subscribers b'') "tool.*" = Some [].
Proof.
  destruct (C9_equality_decides idle (named "tool.execute")
              (mkBus [("tool.*", [7]); ("tool.execute", [7; 8])] [] 0 [] tt)
              "tool.*" "tool.execute" [7] [7; 8]
              method_first (PyObject 4 8))
    as (invoked & r & b' & Hrun & Hcalls & _ & _ & Hboth
        & pre & post & b'' & Hl & Hpre & Hun & Hget & _).
  - reflexivity.
  - simpl. tauto.
  - reflexivity.
  - simpl. tauto.
  - exact tool_pattern_matches.
  - now left.
  - intros c _. apply idle_returns.
  - exists invoked, b', b''. cbv in Hrun. injection Hrun as <- <-.
    split; [reflexivity|]. split; [exact Hcalls|]. split; [exact Hboth|].
    split; [exact Hun|].
    destruct pre as [|x pre]; simpl in Hl.
    + injection Hl as <-. exact Hget.
    + injection Hl as <- Hl. now destruct pre.
Defined.

Lemma C10_witness :
  BufferedEventBus_publish faulty (named "e")
    (mkBus [("e", [2])] [named "old"] 5 [] tt)
  = Raised "boom" (mkBus [("e", [2])] [named "old"] 5 [(2, named "e")] tt).
Proof.
  apply (C10_raise_leaves_buffer faulty (named "e")
           (mkBus [("e", [2])] [named "old"] 5 [] tt)).
  - intros cb ev' b0. unfold faulty. destruct (Nat.eqb cb 2); reflexivity.
  - reflexivity.
Defined.

Lemma C2_witness :
  (exists b',
      BufferedEventBus_publish idle (named "y")
        (mkBus [("a", [1])] [named "a"; named "x"] 2 [] tt)
      = Returned false b' /\
      _buffer b' = [named "x"; named "y"] /\
      calls b' = []) /\
  (exists b',
      BufferedEventBus_publish idle (named "a")
        (mkBus [("a", [1])] [named "a"; named "x"] 2 [] tt)
      = Returned true b' /\
      _buffer b' = [named "x"] /\
      calls b' = [(1, named "a"); (1, named "a")]).
Proof.
  split.
  - destruct (C2_buffered_publish idle (named "y")
                (mkBus [("a", [1])] [named "a"; named "x"] 2 [] tt))
      as (r & b1 & q & n & b' & _ & Hr & Hc1 & _ & Hq & _ & Hb & Hc & Hp & _).
    + simpl. lia.
    + exact idle_quiet.
    + destruct r.
      * exfalso. now apply (proj1 Hr).
      * exists b'. subst q. rewrite Hc1 in Hc.
        split; [exact Hp|]. split; [exact Hb | exact Hc].
  - destruct (C2_buffered_publish idle (named "a")
                (mkBus [("a", [1])] [named "a"; named "x"] 2 [] tt))
      as (r & b1 & q & n & b' & _ & Hr & Hc1 & _ & Hq & _ & Hb & Hc & Hp & _).
    + simpl. lia.
    + exact idle_quiet.
    + destruct r.
      * exists b'. subst q. rewrite Hc1 in Hc.
        split; [exact Hp|]. split; [exact Hb | exact Hc].
      * exfalso. assert (false = true); [|discriminate].
        apply (proj2 Hr). discriminate.
Defined.


Lemma C4_witness :
  length (_buffer (run_ops idle
                     [OpPublish (named "a"); OpSubscribe "b" 1;
                      OpPublish (named "c"); OpPublish (named "d");
                      OpPublish (named "e")]
                     (fresh 2))) <= 2 /\
  exists b',
    publish_all idle [named "a"; named "b"; named "c"] (fresh 2)
    = Returned [false; false; false] b' /\
    _buffer b' = [named "b"; named "c"].
Proof.
  destruct (C4_buffer_capacity idle 2) as (Hops & _ & Hfill).
  - intros cb ev b H. exact H.
  - split; [apply Hops|].
    destruct (Hfill [named "a"; named "b"; named "c"] (fresh 2))
      as (b' & Hp & Hb & _).
    + reflexivity.
    + reflexivity.
    + reflexivity.
    + intros ev _. reflexivity.
    + exists b'. split; [exact Hp | exact Hb].
Defined.

(** ** More about the core bus *)

Lemma list_remove_last cb l :
  ~ In cb l -> list_remove cb (l ++ [cb]) = Some l.
Proof.
  intros H. apply list_remove_Some. exists l, []. now rewrite app_nil_r.
Qed.

Lemma set_same {V : Type} (d : PyDict.t V) k v :
  PyDict.get d k = Some v -> PyDict.set d k v = d.
Proof.
  induction d as [|[k' v'] d IH]; simpl; [discriminate|].
  destruct (String.eqb k' k); [now intros [= ->] |].
  intros H. now rewrite IH.
Qed.

Lemma set_new {V : Type} (d : PyDict.t V) k v :
  PyDict.get d k = None -> PyDict.set d k v = d ++ [(k, v)].
Proof.
  induction d as [|[k' v'] d IH]; simpl; [reflexivity|].
  destruct (String.eqb k' k); [discriminate|].
  intros H. now rewrite IH.
Qed.

Lemma prefix_callbacks_app d1 d2 name :
  prefix_callbacks (d1 ++ d2) name
  = prefix_callbacks d1 name ++ prefix_callbacks d2 name.
Proof.
  induction d1 as [|[k l] d1 IH]; simpl; [reflexivity|].
  destruct (PyStr.endswith k ".*"); [|exact IH].
  destruct (PyStr.startswith name (PyStr.slice_to_neg 2 k)); [|exact IH].
  now rewrite IH, app_assoc.
Qed.

Lemma first_occ_nil_inv (l : list callback) :
  first_occ Nat.eqb l [] = [] -> l = [].
Proof. destruct l; [reflexivity | discriminate]. Qed.

Section CoreExtras.

Context {Any Exn Ext : Type}.
Variable run : callback -> event Any -> M Any Exn Ext unit.

(** X1. [subscribe] always returns [true] and calls nobody; the callback
    goes to the end of the list of its pattern, a pattern that was not a key
    becomes the last key, and nothing else changes. *)
Theorem subscribe_appends pattern cb (b : Bus Any Ext) :
  exists b',
    subscribe (Exn := Exn) pattern cb b = Returned true b' /\
    exact_callbacks (_subscribers b') pattern
    = exact_callbacks (_subscribers b) pattern ++ [cb] /\
    (forall q, q <> pattern ->
               PyDict.get (_subscribers b') q = PyDict.get (_subscribers b) q) /\
    PyDict.keys (_subscribers b')
    = PyDict.keys (_subscribers b)
      ++ (if PyDict.mem (_subscribers b) pattern then [] else [pattern]) /\
    _buffer b' = _buffer b /\ calls b' = calls b /\ world b' = world b.
Proof.
  rewrite subscribe_eq. eexists. split; [reflexivity|]. simpl.
  split; [apply exact_callbacks_set_same|].
  split; [intros q Hq; now apply PyDictFacts.get_set_other|].
  split; [apply PyDictFacts.keys_set|]. repeat split.
Qed.

(** X2. Subscribing a callback under a pattern where it is not registered
    and unsubscribing it again restores every pattern's list and the
    dispatch order of every event name; the pattern stays behind as a key,
    with an empty list when it was new. *)
Theorem subscribe_unsubscribe_round_trip pattern cb (b : Bus Any Ext) :
  ~ In cb (exact_callbacks (_subscribers b) pattern) ->
  exists b1 b2,
    subscribe (Exn := Exn) pattern cb b = Returned true b1 /\
    unsubscribe (Exn := Exn) pattern cb b1 = Returned true b2 /\
    (forall name, exact_callbacks (_subscribers b2) name
                  = exact_callbacks (_subscribers b) name) /\
    (forall name, dispatch_order (_subscribers b2) name
                  = dispatch_order (_subscribers b) name) /\
    PyDict.mem (_subscribers b2) pattern = true /\
    _buffer b2 = _buffer b /\ calls b2 = calls b /\ world b2 = world b.
Proof.
  intros Hnew. rewrite subscribe_eq. eexists _, _. split; [reflexivity|].
  unfold unsubscribe. simpl. rewrite PyDictFacts.get_set_same.
  rewrite (list_remove_last _ _ Hnew), set_set.
  split; [reflexivity|]. simpl.
  assert (Hexact : forall name,
             exact_callbacks
               (PyDict.set (_subscribers b) pattern
                           (exact_callbacks (_subscribers b) pattern)) name
             = exact_callbacks (_subscribers b) name).
  { intros name. destruct (String.eqb_spec name pattern) as [->|Hne].
    - apply exact_callbacks_set_same.
    - now apply exact_callbacks_set_other. }
  assert (Hprefix : forall name,
             prefix_callbacks
               (PyDict.set (_subscribers b) pattern
                           (exact_callbacks (_subscribers b) pattern)) name
             = prefix_callbacks (_subscribers b) name).
  { intros name. unfold exact_callbacks.
    destruct (PyDict.get (_subscribers b) pattern) as [l|] eqn:Hget.
    - now rewrite (set_same _ _ _ Hget).
    - rewrite (set_new _ _ _ Hget), prefix_callbacks_app. simpl.
      destruct (PyStr.endswith pattern ".*");
        [destruct (PyStr.startswith name (PyStr.slice_to_neg 2 pattern))|];
        simpl; now rewrite app_nil_r. }
  split; [exact Hexact|]. split.
  { intros name. unfold dispatch_order. now rewrite Hexact, Hprefix. }
  split; [|repeat split].
  unfold PyDict.mem. now rewrite PyDictFacts.get_set_same.
Qed.

(** X3. On the core bus, publishing an event that nobody is subscribed to
    returns [false], calls nobody and leaves the bus as it was: the event is
    lost. *)
Theorem publish_without_subscriber ev (b : Bus Any Ext) :
  deliverable (_subscribers b) ev = false ->
  publish run ev b = Returned false b.
Proof.
  intros H. apply undeliverable_no_callbacks in H.
  unfold dispatch_order in H. apply first_occ_nil_inv in H.
  unfold publish, _dispatch_event, bind. now rewrite H.
Qed.

End CoreExtras.

(** ** More about the buffered bus *)

Lemma filter_filter {A : Type} (f : A -> bool) l :
  filter f (filter f l) = filter f l.
Proof.
  apply filter_all. intros x Hx. apply filter_In in Hx. tauto.
Qed.

Lemma filter_none {A : Type} (f : A -> bool) l :
  (forall x, In x l -> f x = false) -> filter f l = [].
Proof.
  induction l as [|x l IH]; intros H; simpl; [reflexivity|].
  rewrite (H x) by now left. apply IH. intros y Hy. apply H. now right.
Qed.

Lemma flat_map_nil {A B : Type} (f : A -> list B) l :
  (forall x, In x l -> f x = []) -> flat_map f l = [].
Proof.
  induction l as [|x l IH]; intros H; simpl; [reflexivity|].
  rewrite (H x) by now left. apply IH. intros y Hy. apply H. now right.
Qed.

Section BufferedExtras.

Context {Any Exn Ext : Type}.
Variable run : callback -> event Any -> M Any Exn Ext unit.

(** A pass of [n + m] iterations is a pass of [n] followed by a pass of
    [m], whatever the callbacks do. *)
Lemma flush_loop_add trim_prefix n m :
  forall acc (b : Bus Any Ext),
    flush_loop run trim_prefix (n + m) acc b
    = match flush_loop run trim_prefix n acc b with
      | Returned a b' => flush_loop run trim_prefix m a b'
      | Raised e b' => Raised e b'
      end.
Proof.
  induction n as [|n IH]; intros acc b; simpl; [reflexivity|].
  destruct (_buffer b) as [|ev rest] eqn:Hbuf.
  - destruct m; simpl; [reflexivity | now rewrite Hbuf].
  - destruct (trims trim_prefix ev); [apply IH|].
    unfold bind.
    destruct (_dispatch_event run ev (set_buffer rest b)) as [[] b1|e b1];
      simpl; [apply IH | | reflexivity].
    unfold buffer_append, modify. apply IH.
Qed.

(** An invariant that the callbacks maintain and that does not depend on
    the buffer is maintained by a pass. *)
Lemma flush_loop_inv (P : Bus Any Ext -> Prop) trim_prefix n :
  (forall cb ev b, P b -> P (final (run cb ev b))) ->
  (forall cb ev b, P b -> P (record_call cb ev b)) ->
  (forall q b, P b -> P (set_buffer q b)) ->
  forall acc b, P b -> P (final (flush_loop run trim_prefix n acc b)).
Proof.
  intros Hrun Hrec Hbuf.
  induction n as [|n IH]; intros acc b Hb; simpl; [exact Hb|].
  destruct (_buffer b) as [|ev rest]; [exact Hb|].
  destruct (trims trim_prefix ev); [now apply IH, Hbuf|].
  unfold bind.
  pose proof (dispatch_inv run P Hrun Hrec ev _ (Hbuf rest b Hb)) as Hd.
  destruct (_dispatch_event run ev (set_buffer rest b)) as [[] b1|e b1];
    simpl in *; [now apply IH | | exact Hd].
  unfold buffer_append, modify. now apply IH, Hbuf.
Qed.

Lemma invoke_all_raises_quiet ev e cbs :
  forall seen (b : Bus Any Ext) pre cb post,
    first_occ Nat.eqb cbs seen = pre ++ cb :: post ->
    (forall c, In c pre -> quiet run c) ->
    quiet_raise run cb e ->
    exists w,
      invoke_all run ev cbs seen b
      = Raised e (mkBus (_subscribers b) (_buffer b) (_buffer_max_size b)
                        (calls b ++ map (fun c => (c, ev)) (pre ++ [cb])) w).
Proof.
  induction cbs as [|c cbs IH]; intros seen b pre cb post Hocc Hpre Hcb;
    simpl in *.
  - now destruct pre.
  - unfold in_seen. destruct (existsb (Nat.eqb c) seen).
    + now apply (IH seen b pre cb post).
    + unfold bind, invoke. destruct pre as [|c' pre]; simpl in Hocc.
      * injection Hocc as -> _.
        destruct (Hcb ev (record_call cb ev b)) as (w & ->).
        now exists w.
      * injection Hocc as <- Hocc.
        destruct (Hpre c (or_introl eq_refl) ev (record_call c ev b))
          as (w1 & ->). cbv beta iota.
        destruct (IH (seen ++ [c]) (set_world w1 (record_call c ev b))
                     pre cb post Hocc
                     (fun x Hx => Hpre x (or_intror Hx)) Hcb)
          as (w & Hrun).
        exists w. simpl in Hrun. rewrite <- app_assoc in Hrun. exact Hrun.
Qed.

Lemma dispatch_raises_quiet ev (b : Bus Any Ext) pre cb post e :
  dispatch_order (_subscribers b) (event_name ev) = pre ++ cb :: post ->
  (forall c, In c pre -> quiet run c) ->
  quiet_raise run cb e ->
  exists w,
    _dispatch_event run ev b
    = Raised e (mkBus (_subscribers b) (_buffer b) (_buffer_max_size b)
                      (calls b ++ map (fun c => (c, ev)) (pre ++ [cb])) w).
Proof.
  intros Horder Hpre Hcb.
  destruct (invoke_all_raises_quiet ev e _ [] b pre cb post Horder Hpre Hcb)
    as (w & Hrun).
  exists w. unfold _dispatch_event. now apply bind_raised.
Qed.

(** X4. With quiet callbacks and a buffer within its capacity, a flush
    dispatches the buffered events that it does not trim in buffer order,
    keeps exactly those that are neither trimmed nor delivered, in their
    order, and returns the number of events that it removed. *)
Theorem flush_in_buffer_order trim_prefix (b : Bus Any Ext) :
  length (_buffer b) <= _buffer_max_size b ->
  (forall c, quiet run c) ->
  exists b',
    _flush_buffer run trim_prefix b
    = Returned (length (_buffer b) - length (_buffer b')) b' /\
    _buffer b' = filter (survives trim_prefix (_subscribers b)) (_buffer b) /\
    calls b'
    = calls b ++ flat_map (calls_for (_subscribers b))
                  (filter (fun ev => negb (trims trim_prefix ev)) (_buffer b)) /\
    _subscribers b' = _subscribers b /\
    _buffer_max_size b' = _buffer_max_size b.
Proof.
  intros Hcap Hq.
  destruct (flush_buffer_quiet run trim_prefix b Hcap) as (w & Hf).
  { intros ? c _ _ _. apply Hq. }
  match type of Hf with _ = Returned _ ?s => exists s end.
  split; [|simpl; repeat split].
  rewrite Hf. f_equal. simpl.
  pose proof (filter_length (survives trim_prefix (_subscribers b))
                            (_buffer b)) as Hlen.
  lia.
Qed.

(** X5. With quiet callbacks, a second flush right after a flush removes
    nothing, calls nobody and leaves the buffer as the first one left it. *)
Theorem flush_twice trim_prefix (b : Bus Any Ext) :
  length (_buffer b) <= _buffer_max_size b ->
  (forall c, quiet run c) ->
  exists n b1 b2,
    _flush_buffer run trim_prefix b = Returned n b1 /\
    _flush_buffer run trim_prefix b1 = Returned 0 b2 /\
    _buffer b2 = _buffer b1 /\ calls b2 = calls b1 /\
    _subscribers b2 = _subscribers b1.
Proof.
  intros Hcap Hq.
  destruct (flush_buffer_quiet run trim_prefix b Hcap) as (w & Hf).
  { intros ? c _ _ _. apply Hq. }
  match type of Hf with _ = Returned _ ?s => set (b1 := s) in * end.
  destruct (flush_buffer_quiet run trim_prefix b1) as (w2 & Hf2).
  { simpl. etransitivity; [apply filter_length_le | exact Hcap]. }
  { intros ? c _ _ _. apply Hq. }
  simpl in Hf2.
  assert (Hsurv : forall x,
             In x (filter (survives trim_prefix (_subscribers b)) (_buffer b)) ->
             survives trim_prefix (_subscribers b) x = true).
  { intros x Hx. apply filter_In in Hx. tauto. }
  rewrite filter_filter in Hf2.
  rewrite (filter_none (fun ev => negb (survives trim_prefix (_subscribers b) ev)))
    in Hf2 by (intros x Hx; now rewrite (Hsurv x Hx)).
  rewrite (flat_map_nil (calls_for (_subscribers b))
             (filter (fun ev => negb (trims trim_prefix ev))
                (filter (survives trim_prefix (_subscribers b)) (_buffer b))))
    in Hf2.
  - eexists _, b1, _. split; [exact Hf|]. split; [exact Hf2|].
    unfold b1. simpl. rewrite app_nil_r. repeat split.
  - intros x Hx. apply filter_In in Hx. destruct Hx as [Hx _].
    apply Hsurv in Hx. unfold survives in Hx.
    apply andb_true_iff in Hx. destruct Hx as [_ Hx].
    unfold calls_for.
    rewrite (undeliverable_no_callbacks (_subscribers b) x); [reflexivity|].
    now destruct (deliverable (_subscribers b) x).
Qed.

(** X6. When the dispatch of a buffered event raises during a flush, the
    flush raises and that event is gone: it was taken out of the buffer
    before the dispatch and is not put back. The events behind it stay at
    the front, untouched, and the survivors among those before it are at
    the back. *)
Theorem flush_raise_drops_event trim_prefix pre ev post cpre cb cpost e
        (b : Bus Any Ext) :
  _buffer b = pre ++ ev :: post ->
  length (_buffer b) <= _buffer_max_size b ->
  (forall x c, In x pre -> trims trim_prefix x = false ->
               In c (dispatch_order (_subscribers b) (event_name x)) ->
               quiet run c) ->
  trims trim_prefix ev = false ->
  dispatch_order (_subscribers b) (event_name ev) = cpre ++ cb :: cpost ->
  (forall c, In c cpre -> quiet run c) ->
  quiet_raise run cb e ->
  exists b',
    _flush_buffer run trim_prefix b = Raised e b' /\
    _buffer b' = post ++ filter (survives trim_prefix (_subscribers b)) pre /\
    calls b'
    = calls b
      ++ flat_map (calls_for (_subscribers b))
           (filter (fun x => negb (trims trim_prefix x)) pre)
      ++ map (fun c => (c, ev)) (cpre ++ [cb]).
Proof.
  intros Hbuf Hcap Hpre Htrim Horder Hcpre Hcb.
  unfold _flush_buffer. rewrite Hbuf, length_app. simpl length.
  rewrite flush_loop_add.
  destruct (flush_loop_quiet run trim_prefix pre (ev :: post) 0 b Hbuf Hcap Hpre)
    as (w1 & ->).
  simpl. rewrite Htrim.
  match goal with
  | |- context [bind (_dispatch_event run ev) _ ?s] =>
      destruct (dispatch_raises_quiet ev s cpre cb cpost e Horder Hcpre Hcb)
        as (w & Hd)
  end.
  eexists. split.
  - apply bind_raised. exact Hd.
  - simpl. split; [reflexivity | now rewrite <- app_assoc].
Qed.

(** X7. Whatever the callbacks do, a flush that returns has counted at most
    as many removals as the buffer held when it started. *)
Theorem flush_count_bounded trim_prefix (b : Bus Any Ext) k b' :
  _flush_buffer run trim_prefix b = Returned k b' ->
  k <= length (_buffer b).
Proof. intros H. apply flush_loop_count in H. lia. Qed.

(** X8. When the callbacks do not change the registry, a subscribe on the
    buffered bus registers the callback even when the flush that follows
    raises. *)
Theorem buffered_subscribe_registers pattern cb (b : Bus Any Ext) :
  (forall c ev x, _subscribers (final (run c ev x)) = _subscribers x) ->
  _subscribers (final (BufferedEventBus_subscribe run pattern cb b))
  = PyDict.set (_subscribers b) pattern
               (exact_callbacks (_subscribers b) pattern ++ [cb]).
Proof.
  intros Hrun. unfold BufferedEventBus_subscribe.
  rewrite (bind_returned _ _ _ _ _ (subscribe_eq pattern cb b)).
  match goal with
  | |- context [set_subscribers ?d b] => set (d' := d); set (s := set_subscribers d' b)
  end.
  pose proof (flush_loop_inv (fun x => _subscribers x = d') None
                (length (_buffer s))) as H.
  specialize (H (fun c ev x Hx => eq_trans (Hrun c ev x) Hx)).
  specialize (H (fun c ev x Hx => Hx) (fun q x Hx => Hx) 0 s eq_refl).
  unfold bind, _flush_buffer.
  destruct (flush_loop run None (length (_buffer s)) 0 s); exact H.
Qed.

(** X9. With quiet callbacks and a buffer within its capacity, a publish on
    the buffered bus returns whether the event is deliverable, dispatches
    the event first and the buffered events after it, and leaves in the
    buffer the undeliverable ones among the old entries and, when it was
    not delivered, the event (appended with eviction of the oldest entry at
    capacity). *)
Theorem buffered_publish_quiet ev (b : Bus Any Ext) :
  length (_buffer b) <= _buffer_max_size b ->
  (forall c, quiet run c) ->
  exists b',
    BufferedEventBus_publish run ev b
    = Returned (deliverable (_subscribers b) ev) b' /\
    _buffer b'
    = filter (fun x => negb (deliverable (_subscribers b) x))
        (if deliverable (_subscribers b) ev then _buffer b
         else deque_append (_buffer_max_size b) (_buffer b) ev) /\
    calls b'
    = calls b ++ calls_for (_subscribers b) ev
      ++ flat_map (calls_for (_subscribers b))
           (if deliverable (_subscribers b) ev then _buffer b
            else deque_append (_buffer_max_size b) (_buffer b) ev) /\
    _subscribers b' = _subscribers b.
Proof.
  intros Hcap Hq.
  destruct (dispatch_quiet run ev b (fun c _ => Hq c)) as (w1 & Hd).
  match type of Hd with _ = Returned _ ?s => set (b1 := s) in * end.
  set (b2 := if deliverable (_subscribers b) ev then b1
             else set_buffer
                    (deque_append (_buffer_max_size b1) (_buffer b1) ev) b1).
  destruct (flush_buffer_quiet run None b2) as (w2 & Hf).
  { unfold b2. destruct (deliverable (_subscribers b) ev); simpl;
      [exact Hcap | now apply deque_append_length]. }
  { intros ? c _ _ _. apply Hq. }
  eexists. split.
  - apply buffered_publish_returned. eexists b1, _. split; [exact Hd|].
    exact Hf.
  - assert (Hall : forall l : list (event Any),
               filter (fun x => negb (trims None x)) l = l).
    { intros l. apply filter_all. reflexivity. }
    unfold b2. simpl. rewrite Hall.
    destruct (deliverable (_subscribers b) ev); simpl;
      rewrite <- app_assoc; repeat split.
Qed.

(** X10. Publishing events that nobody receives on a bus whose buffered
    events nobody receives either returns [false] each time and leaves in
    the buffer the most recent events, as many as the capacity allows, in
    publish order. *)
Theorem buffer_keeps_most_recent evs (b : Bus Any Ext) :
  length (_buffer b) <= _buffer_max_size b ->
  (forall x, In x evs -> deliverable (_subscribers b) x = false) ->
  (forall x, In x (_buffer b) -> deliverable (_subscribers b) x = false) ->
  exists b',
    publish_all run evs b = Returned (map (fun _ => false) evs) b' /\
    _buffer b'
    = skipn (length (_buffer b ++ evs) - _buffer_max_size b) (_buffer b ++ evs).
Proof.
  intros Hcap Hevs Hbuf.
  destruct (publish_all_undeliverable run evs b Hcap Hevs Hbuf)
    as (b' & Hp & Hb').
  exists b'. split; [exact Hp|].
  rewrite Hb', fold_deque_append by exact Hcap. now rewrite length_app.
Qed.

(** X11. With quiet callbacks, a trim by a non-empty prefix leaves no
    buffered event whose name starts with the prefix, dispatches none of
    those events, and returns at least the number of events it trimmed. *)
Theorem trim_by_nonempty_prefix prefix (b : Bus Any Ext) :
  prefix <> "" ->
  length (_buffer b) <= _buffer_max_size b ->
  (forall c, quiet run c) ->
  exists n b' l,
    trim_by_prefix run prefix b = Returned n b' /\
    (forall ev, In ev (_buffer b') ->
                PyStr.startswith (event_name ev) prefix = false) /\
    length (filter (fun ev => PyStr.startswith (event_name ev) prefix)
                   (_buffer b)) <= n /\
    calls b' = calls b ++ l /\
    (forall cb ev, In (cb, ev) l ->
                   PyStr.startswith (event_name ev) prefix = false).
Proof. apply trim_by_prefix_quiet. Qed.

(** X12. A trim by the empty prefix is a plain flush, whatever the bus and
    the callbacks. *)
Theorem trim_by_empty_prefix_is_flush (b : Bus Any Ext) :
  trim_by_prefix run "" b = _flush_buffer run None b.
Proof.
  unfold trim_by_prefix, _flush_buffer.
  generalize (length (_buffer b)) as n. generalize 0 as acc. revert b.
  intros b acc n. revert acc b.
  induction n as [|n IH]; intros acc b; simpl; [reflexivity|].
  destruct (_buffer b) as [|ev rest]; [reflexivity|].
  unfold bind.
  destruct (_dispatch_event run ev (set_buffer rest b)) as [[] b1|e b1];
    simpl; [apply IH | | reflexivity].
  unfold buffer_append, modify. apply IH.
Qed.

End BufferedExtras.

(** ** SingletonMeta *)

Lemma bus_class_eqb_eq c1 c2 : bus_class_eqb c1 c2 = true <-> c1 = c2.
Proof. destruct c1, c2; simpl; split; congruence. Qed.

Section SingletonFacts.

Context {Any Ext : Type}.

Lemma instance_of_app (inst : @instances Any Ext) cls b cls' :
  instance_of (inst ++ [(cls, b)]) cls'
  = match instance_of inst cls' with
    | Some b' => Some b'
    | None => if bus_class_eqb cls cls' then Some b else None
    end.
Proof.
  induction inst as [|[c x] inst IH]; simpl; [reflexivity|].
  destruct (bus_class_eqb c cls'); [reflexivity | exact IH].
Qed.

(** X13. Once a call of a class has returned an instance, every later call
    of that class returns the same instance and leaves [_instances] as it
    is, whatever the arguments: they are not looked at, not even when a
    construction with them would raise. *)
Theorem singleton_reuses_instance cls size w (inst inst1 : @instances Any Ext)
        b :
  SingletonMeta_call cls size w inst = inl (inst1, b) ->
  forall size' w', SingletonMeta_call cls size' w' inst1 = inl (inst1, b).
Proof.
  unfold SingletonMeta_call. intros H size' w'.
  destruct (instance_of inst cls) as [b0|] eqn:Hfind.
  - injection H as <- <-. now rewrite Hfind.
  - destruct (construct cls size w) as [b0|e]; [|discriminate].
    injection H as <- <-. rewrite instance_of_app, Hfind.
    assert (bus_class_eqb cls cls = true) as -> by now apply bus_class_eqb_eq.
    reflexivity.
Qed.

(** X14. A call of a class stores the instance it returns under that class
    and neither creates nor changes the instance of any other class. *)
Theorem singleton_per_class cls size w (inst inst1 : @instances Any Ext) b :
  SingletonMeta_call cls size w inst = inl (inst1, b) ->
  instance_of inst1 cls = Some b /\
  forall cls', cls' <> cls -> instance_of inst1 cls' = instance_of inst cls'.
Proof.
  unfold SingletonMeta_call. intros H.
  destruct (instance_of inst cls) as [b0|] eqn:Hfind.
  - injection H as <- <-. split; [exact Hfind | reflexivity].
  - destruct (construct cls size w) as [b0|e]; [|discriminate].
    injection H as <- <-. split.
    + rewrite instance_of_app, Hfind.
      assert (bus_class_eqb cls cls = true) as -> by now apply bus_class_eqb_eq.
      reflexivity.
    + intros cls' Hne. rewrite instance_of_app.
      destruct (instance_of inst cls'); [reflexivity|].
      destruct (bus_class_eqb cls cls') eqn:E; [|reflexivity].
      apply bus_class_eqb_eq in E. congruence.
Qed.

End SingletonFacts.

(** ** The tool wrapper *)

Section ToolFacts.

Context {Any Exn Ext : Type}.
Variable run : callback -> event Any -> M Any Exn Ext unit.
Variable of_dict : list (string * Any) -> Any.
Variable of_exn : Exn -> Any.
Variable is_Exception : Exn -> bool.
Variable ValueError : string -> Exn.
Variable func : list Any -> list (string * Any) -> M Any Exn Ext Any.

(** X15. With quiet subscribers and a function that returns [r], the
    wrapper returns [r] after dispatching the execute event and then the
    result event, which carries [r]; no error event is dispatched. *)
Theorem tool_call_success name args kwargs r (b : Bus Any Ext) :
  (forall c, quiet run c) ->
  function_returns func args kwargs r ->
  exists b',
    _wrap_function run of_dict of_exn is_Exception func name args kwargs b = Returned r b' /\
    calls b'
    = calls b
      ++ calls_for (_subscribers b) (execute_event of_dict name args kwargs)
      ++ calls_for (_subscribers b) (result_event of_dict name r kwargs) /\
    _subscribers b' = _subscribers b.
Proof.
  intros Hq Hf. unfold _wrap_function, publish.
  destruct (dispatch_quiet run (execute_event of_dict name args kwargs) b
              (fun c _ => Hq c)) as (w1 & Hd1).
  rewrite (bind_returned _ _ _ _ _ Hd1). unfold try_except.
  match goal with
  | |- context [bind (func args kwargs) _ ?s] =>
      destruct (Hf s) as (w2 & Hf2);
      rewrite (bind_returned _ _ _ _ _ Hf2)
  end.
  match goal with
  | |- context [bind (_dispatch_event run ?ev) _ ?s] =>
      destruct (dispatch_quiet run ev s (fun c _ => Hq c)) as (w3 & Hd3);
      rewrite (bind_returned _ _ _ _ _ Hd3)
  end.
  eexists. split; [reflexivity|]. simpl. now rewrite <- app_assoc.
Qed.

(** X16. With quiet subscribers and a function that raises [e], the
    wrapper raises [e] after dispatching the execute event and, when [e] is
    an [Exception], the error event, which carries [e]; no result event is
    dispatched. *)
Theorem tool_call_failure name args kwargs e (b : Bus Any Ext) :
  (forall c, quiet run c) ->
  function_raises func args kwargs e ->
  exists b',
    _wrap_function run of_dict of_exn is_Exception func name args kwargs b = Raised e b' /\
    calls b'
    = calls b
      ++ calls_for (_subscribers b) (execute_event of_dict name args kwargs)
      ++ (if is_Exception e
          then calls_for (_subscribers b) (error_event of_exn name e)
          else []) /\
    _subscribers b' = _subscribers b.
Proof.
  intros Hq Hf. unfold _wrap_function, publish.
  destruct (dispatch_quiet run (execute_event of_dict name args kwargs) b
              (fun c _ => Hq c)) as (w1 & Hd1).
  rewrite (bind_returned _ _ _ _ _ Hd1). unfold try_except.
  match goal with
  | |- context [bind (func args kwargs) _ ?s] =>
      destruct (Hf s) as (w2 & Hf2);
      rewrite (bind_raised _ _ _ _ _ Hf2)
  end.
  destruct (is_Exception e).
  - match goal with
    | |- context [bind (_dispatch_event run ?ev) _ ?s] =>
        destruct (dispatch_quiet run ev s (fun c _ => Hq c)) as (w3 & Hd3);
        rewrite (bind_returned _ _ _ _ _ Hd3)
    end.
    eexists. split; [reflexivity|]. simpl. now rewrite <- app_assoc.
  - eexists. split; [reflexivity|]. simpl. now rewrite app_nil_r.
Qed.

(** X17. When the function returns but a result subscriber raises an
    [Exception] [e], the wrapper dispatches the error event with [e] and
    raises [e]: the call is reported as failed and its result is lost. *)
Theorem tool_result_subscriber_raises name args kwargs r pre cb post e
        (b : Bus Any Ext) :
  function_returns func args kwargs r ->
  is_Exception e = true ->
  (forall c, In c (dispatch_order (_subscribers b) (name ++ ".execute")) ->
             quiet run c) ->
  dispatch_order (_subscribers b) (name ++ ".result") = pre ++ cb :: post ->
  (forall c, In c pre -> quiet run c) ->
  quiet_raise run cb e ->
  (forall c, In c (dispatch_order (_subscribers b) (name ++ ".error")) ->
             quiet run c) ->
  exists b',
    _wrap_function run of_dict of_exn is_Exception func name args kwargs b = Raised e b' /\
    calls b'
    = calls b
      ++ calls_for (_subscribers b) (execute_event of_dict name args kwargs)
      ++ map (fun c => (c, result_event of_dict name r kwargs)) (pre ++ [cb])
      ++ calls_for (_subscribers b) (error_event of_exn name e).
Proof.
  intros Hf He Hexec Hres Hpre Hcb Herr. unfold _wrap_function, publish.
  destruct (dispatch_quiet run (execute_event of_dict name args kwargs) b Hexec)
    as (w1 & Hd1).
  rewrite (bind_returned _ _ _ _ _ Hd1). unfold try_except.
  match goal with
  | |- context [bind (func args kwargs) _ ?s] =>
      destruct (Hf s) as (w2 & Hf2);
      rewrite (bind_returned _ _ _ _ _ Hf2)
  end.
  match goal with
  | |- context [bind (_dispatch_event run ?ev) _ ?s] =>
      destruct (dispatch_raises_quiet run ev s pre cb post e Hres Hpre Hcb)
        as (w3 & Hd3);
      rewrite (bind_raised _ _ _ _ _ Hd3)
  end.
  rewrite He.
  match goal with
  | |- context [bind (_dispatch_event run ?ev) _ ?s] =>
      destruct (dispatch_quiet run ev s Herr) as (w4 & Hd4);
      rewrite (bind_returned _ _ _ _ _ Hd4)
  end.
  eexists. split; [reflexivity|]. simpl. now rewrite <- !app_assoc.
Qed.

(** X18. When an execute subscriber raises, the wrapper raises the same
    exception from the bus that the dispatch left, whatever the function
    is: the function is not called and no error event is dispatched. *)
Theorem tool_execute_subscriber_raises name args kwargs pre cb post e
        (b : Bus Any Ext) :
  dispatch_order (_subscribers b) (name ++ ".execute") = pre ++ cb :: post ->
  (forall c, In c pre -> quiet run c) ->
  quiet_raise run cb e ->
  exists w,
    _wrap_function run of_dict of_exn is_Exception func name args kwargs b
    = Raised e
        (mkBus (_subscribers b) (_buffer b) (_buffer_max_size b)
               (calls b ++ map (fun c => (c, execute_event of_dict name args kwargs))
                             (pre ++ [cb]))
               w).
Proof.
  intros Horder Hpre Hcb.
  destruct (dispatch_raises_quiet run (execute_event of_dict name args kwargs)
              b pre cb post e Horder Hpre Hcb) as (w & Hd).
  exists w. unfold _wrap_function. apply bind_raised. exact Hd.
Qed.

(** X19. A callback subscribed to a tool without a type is invoked with the
    execute and the result event of every tool whose name starts with that
    tool's name, the tool itself included: the wildcard pattern matches by
    prefix of the name, with no separator. *)
Theorem tool_wildcard_subscription name rest cb args kwargs r
        (b : Bus Any Ext) :
  (forall c, quiet run c) ->
  function_returns func args kwargs r ->
  exists b1 b2,
    JustTool_subscribe (Exn := Exn) name cb None b = Returned true b1 /\
    _wrap_function run of_dict of_exn is_Exception func (name ++ rest) args
                   kwargs b1 = Returned r b2 /\
    In (cb, execute_event of_dict (name ++ rest) args kwargs) (calls b2) /\
    In (cb, result_event of_dict (name ++ rest) r kwargs) (calls b2).
Proof.
  intros Hq Hf. unfold JustTool_subscribe. rewrite subscribe_eq.
  eexists _. 
  match goal with
  | |- exists b2, Returned true ?s = _ /\ _ =>
      destruct (tool_call_success (name ++ rest) args kwargs r s Hq Hf)
        as (b2 & Hrun & Hcalls & _)
  end.
  exists b2. split; [reflexivity|]. split; [exact Hrun|].
  assert (Hin : forall suffix,
             In cb (dispatch_order
                      (PyDict.set (_subscribers b) (name ++ ".*")
                         (exact_callbacks (_subscribers b) (name ++ ".*")
                          ++ [cb]))
                      ((name ++ rest) ++ suffix))).
  { intros suffix. apply subscribed_dispatch_order. right.
    exists name, (rest ++ suffix)%string. split; [reflexivity|].
    clear. induction name as [|a n IH]; simpl; [reflexivity | now rewrite IH]. }
  rewrite Hcalls. simpl. split.
  - apply in_app_iff. right. apply in_app_iff. left.
    unfold calls_for. apply in_map_iff. eexists. split; [reflexivity|].
    apply Hin.
  - apply in_app_iff. right. apply in_app_iff. right.
    unfold calls_for. apply in_map_iff. eexists. split; [reflexivity|].
    apply Hin.
Qed.

(** X20. [subscribe_to_call], [subscribe_to_result] and
    [subscribe_to_error] always return: the subscription cannot fail, so
    their [ValueError] is never raised; the callback is then registered
    under the tool's execute, result or error event. *)
Theorem subscribe_to_event_never_raises name cb (b : Bus Any Ext) :
  (exists b', subscribe_to_call ValueError name cb b = Returned tt b' /\
              In cb (exact_callbacks (_subscribers b') (name ++ ".execute"))) /\
  (exists b', subscribe_to_result ValueError name cb b = Returned tt b' /\
              In cb (exact_callbacks (_subscribers b') (name ++ ".result"))) /\
  (exists b', subscribe_to_error ValueError name cb b = Returned tt b' /\
              In cb (exact_callbacks (_subscribers b') (name ++ ".error"))).
Proof.
  unfold subscribe_to_call, subscribe_to_result, subscribe_to_error,
    JustTool_subscribe.
  repeat split; rewrite (bind_returned _ _ _ _ _ (subscribe_eq _ cb b));
    eexists; (split; [reflexivity|]); simpl;
    rewrite exact_callbacks_set_same; apply in_app_iff; right; now left.
Qed.

(** X21. A subscription made without a type is not removed by an
    unsubscribe with a type: unless the callback is also registered under
    that typed event, the unsubscribe returns [false] and changes nothing,
    and the callback stays subscribed to the wildcard pattern. *)
Theorem tool_unsubscribe_needs_same_type name cb t (b : Bus Any Ext) :
  t <> "*" ->
  ~ In cb (exact_callbacks (_subscribers b) (name ++ "." ++ t)) ->
  exists b1,
    JustTool_subscribe (Exn := Exn) name cb None b = Returned true b1 /\
    JustTool_unsubscribe (Exn := Exn) name cb (Some t) b1 = Returned false b1 /\
    In cb (exact_callbacks (_subscribers b1) (name ++ ".*")).
Proof.
  intros Ht Hnot. unfold JustTool_subscribe, JustTool_unsubscribe.
  rewrite subscribe_eq. eexists. split; [reflexivity|].
  assert (Hne : (name ++ "." ++ t)%string <> (name ++ ".*")%string).
  { clear -Ht. induction name as [|a n IH]; simpl.
    - intros [= H]. now apply Ht.
    - intros [= H]. now apply IH. }
  remember (name ++ "." ++ t)%string as key eqn:Hkey. clear Hkey.
  split.
  - unfold unsubscribe. cbn [_subscribers set_subscribers].
    rewrite PyDictFacts.get_set_other by exact Hne.
    unfold exact_callbacks in Hnot.
    destruct (PyDict.get (_subscribers b) key) as [l|]; [|reflexivity].
    apply list_remove_None in Hnot. now rewrite Hnot.
  - cbn [_subscribers set_subscribers].
    rewrite exact_callbacks_set_same. apply in_app_iff. right. now left.
Qed.

End ToolFacts.

(** ** The log bus *)

Section LogFacts.

Context {Any Exn Ext : Type}.
Variable run : callback -> event Any -> M Any Exn Ext unit.
Variable of_str : string -> Any.
Variable TypeError : Exn.

(** The event that a helper publishes. *)
Lemma log_with_severity_eq severity default_action message source action
      (kwargs : keywords Any) :
  has_key "severity" (items kwargs) = false ->
  has_key "log_message" (items kwargs) = false ->
  has_key "self" (items kwargs) = false ->
  has_key "event_name" (items kwargs) = false ->
  log_with_severity run of_str TypeError severity default_action message
                    source action kwargs
  = (BufferedEventBus_publish run
       (Event (or_default source "anonymous_logger") []
              (("log_message", of_str message)
                 :: ("action", of_str (or_default action default_action))
                 :: ("severity", of_str severity) :: items kwargs)) ;;;
     ret tt).
Proof.
  intros H1 H2 H3 H4. unfold log_with_severity, log_message.
  rewrite H1. unfold has_key in *. simpl. now rewrite H2, H3, H4.
Qed.

Lemma publish_undeliverable_silent ev (b : Bus Any Ext) :
  length (_buffer b) <= _buffer_max_size b ->
  deliverable (_subscribers b) ev = false ->
  (forall x, In x (_buffer b) -> deliverable (_subscribers b) x = false) ->
  exists b',
    BufferedEventBus_publish run ev b = Returned false b' /\
    _subscribers b' = _subscribers b /\
    _buffer b' = deque_append (_buffer_max_size b) (_buffer b) ev /\
    calls b' = calls b.
Proof.
  intros Hcap Hev Hbuf.
  destruct (dispatch_quiet run ev b) as (w1 & Hd).
  { rewrite (undeliverable_no_callbacks _ _ Hev). intros ? []. }
  rewrite Hev in Hd.
  match type of Hd with _ = Returned _ ?s => set (b1 := s) in * end.
  assert (Hall : forall x,
             In x (deque_append (_buffer_max_size b1) (_buffer b1) ev) ->
             deliverable (_subscribers b) x = false).
  { intros x Hx. apply (deque_append_In run) in Hx.
    destruct Hx as [Hx| ->]; auto. }
  destruct (flush_buffer_quiet run None
              (set_buffer (deque_append (_buffer_max_size b1) (_buffer b1) ev)
                          b1)) as (w2 & Hf).
  { simpl. now apply deque_append_length. }
  { simpl. intros x c Hx _ Hc. apply Hall in Hx.
    rewrite (undeliverable_no_callbacks _ _ Hx) in Hc. destruct Hc. }
  eexists. split.
  - apply buffered_publish_returned. eexists b1, _. split; [exact Hd|].
    exact Hf.
  - simpl. split; [reflexivity|]. split.
    + apply filter_all. intros x Hx. unfold survives. simpl.
      now rewrite (Hall x Hx).
    + unfold calls_for at 1.
      rewrite (undeliverable_no_callbacks _ _ Hev). simpl.
      rewrite app_nil_r.
      rewrite (flat_map_nil (calls_for (_subscribers b))); [apply app_nil_r|].
      intros x Hx. apply filter_In in Hx. destruct Hx as [Hx _].
      unfold calls_for.
      now rewrite (undeliverable_no_callbacks _ _ (Hall x Hx)).
Qed.

(** X22. A log line written with one of the six helpers when nobody is
    subscribed to its source (and nobody to the buffered events) returns
    nothing, calls nobody and is appended to the buffer as one event: its
    name is the source (["anonymous_logger"] by default), it has no
    positional arguments, and its keyword arguments are the message, the
    action (the helper's own by default), the severity of the helper and
    then the caller's. *)
Theorem log_line_is_buffered helper level default_action message source
        action (kwargs : keywords Any) (b : Bus Any Ext) :
  In (helper, level, default_action)
     [(trace, "TRACE", "log_bus.trace"); (debug, "DEBUG", "log_bus.debug");
      (info, "INFO", "log_bus.info"); (warn, "WARN", "log_bus.warn");
      (error, "ERROR", "log_bus.error"); (fatal, "FATAL", "log_bus.fatal")] ->
  (forall k, In k ["severity"; "log_message"; "self"; "event_name"] ->
             has_key k (items kwargs) = false) ->
  length (_buffer b) <= _buffer_max_size b ->
  dispatch_order (_subscribers b) (or_default source "anonymous_logger") = [] ->
  (forall x, In x (_buffer b) -> deliverable (_subscribers b) x = false) ->
  exists b',
    helper run of_str TypeError message source action kwargs b
    = Returned tt b' /\
    _buffer b'
    = deque_append (_buffer_max_size b) (_buffer b)
        (Event (or_default source "anonymous_logger") []
               (("log_message", of_str message)
                  :: ("action", of_str (or_default action default_action))
                  :: ("severity", of_str level) :: items kwargs)) /\
    _subscribers b' = _subscribers b /\ calls b' = calls b.
Proof.
  intros Hin Hkeys Hcap Hnone Hbuf.
  assert (Heq : helper run of_str TypeError message source action kwargs
                = log_with_severity run of_str TypeError level default_action
                                    message source action kwargs).
  { simpl in Hin.
    destruct Hin as [H|[H|[H|[H|[H|[H|[]]]]]]]; injection H as <- <- <-;
      reflexivity. }
  rewrite Heq, log_with_severity_eq by (apply Hkeys; simpl; tauto).
  match goal with
  | |- context [BufferedEventBus_publish run ?x] => set (ev := x)
  end.
  assert (Hund : deliverable (_subscribers b) ev = false).
  { unfold deliverable. simpl. now rewrite Hnone. }
  destruct (publish_undeliverable_silent ev b Hcap Hund Hbuf)
    as (b' & Hp & Hs & Hb & Hc).
  exists b'. rewrite (bind_returned _ _ _ _ _ Hp). repeat split; assumption.
Qed.

(** X23. With quiet callbacks, a log line written with one of the six
    helpers is handed, as that event, to a callback subscribed under a
    pattern that matches its source, and is not buffered. *)
Theorem log_line_is_delivered helper level default_action message source
        action (kwargs : keywords Any) pattern l cb (b : Bus Any Ext) :
  In (helper, level, default_action)
     [(trace, "TRACE", "log_bus.trace"); (debug, "DEBUG", "log_bus.debug");
      (info, "INFO", "log_bus.info"); (warn, "WARN", "log_bus.warn");
      (error, "ERROR", "log_bus.error"); (fatal, "FATAL", "log_bus.fatal")] ->
  (forall k, In k ["severity"; "log_message"; "self"; "event_name"] ->
             has_key k (items kwargs) = false) ->
  length (_buffer b) <= _buffer_max_size b ->
  (forall c, quiet run c) ->
  PyDict.get (_subscribers b) pattern = Some l -> In cb l ->
  matches pattern (or_default source "anonymous_logger") ->
  exists b' calls',
    helper run of_str TypeError message source action kwargs b
    = Returned tt b' /\
    calls b' = calls b ++ calls' /\
    In (cb, Event (or_default source "anonymous_logger") []
                  (("log_message", of_str message)
                     :: ("action", of_str (or_default action default_action))
                     :: ("severity", of_str level) :: items kwargs)) calls' /\
    forall x, In x (_buffer b') -> In x (_buffer b).
Proof.
  intros Hin Hkeys Hcap Hq Hget Hcb Hm.
  assert (Heq : helper run of_str TypeError message source action kwargs
                = log_with_severity run of_str TypeError level default_action
                                    message source action kwargs).
  { simpl in Hin.
    destruct Hin as [H|[H|[H|[H|[H|[H|[]]]]]]]; injection H as <- <- <-;
      reflexivity. }
  rewrite Heq, log_with_severity_eq by (apply Hkeys; simpl; tauto).
  match goal with
  | |- context [BufferedEventBus_publish run ?x] => set (ev := x)
  end.
  assert (Hdel : In cb (dispatch_order (_subscribers b) (event_name ev))).
  { apply dispatch_order_In. simpl. destruct Hm as [->|Hm].
    - left. unfold exact_callbacks. now rewrite Hget.
    - right. apply prefix_callbacks_In. exists pattern, l.
      split; [now apply PyDictFacts.get_In|].
      split; [now apply is_prefix_match_iff | exact Hcb]. }
  destruct (dispatch_quiet run ev b (fun c _ => Hq c)) as (w1 & Hd).
  rewrite (deliverable_In _ _ _ Hdel) in Hd.
  match type of Hd with _ = Returned _ ?s => set (b1 := s) in * end.
  destruct (flush_buffer_quiet run None b1 Hcap) as (w2 & Hf).
  { intros ? c _ _ _. apply Hq. }
  pose proof (proj2 (buffered_publish_returned run ev b true _)
                (ex_intro _ b1 (ex_intro _ _ (conj Hd Hf)))) as Hp.
  eexists _, _. rewrite (bind_returned _ _ _ _ _ Hp).
  split; [reflexivity|]. simpl. split; [now rewrite <- app_assoc|]. split.
  - apply in_app_iff. left. unfold calls_for.
    now apply (in_map (fun c => (c, ev))).
  - intros x Hx. apply filter_In in Hx. tauto.
Qed.

End LogFacts.

(** ** The further theorems at concrete inputs *)

Lemma breaking_quiet c : c <> 2 -> quiet breaking c.
Proof.
  intros Hc ev b. exists (world b). unfold breaking.
  destruct (Nat.eqb_spec c 2) as [E|_]; [contradiction|]. now destruct b.
Defined.

Lemma breaking_raises : quiet_raise breaking 2 "broken".
Proof. intros ev b. exists (world b). now destruct b. Defined.

Lemma answer_returns args kwargs :
  function_returns (Any := nat) (Exn := string) (Ext := unit)
                   answer args kwargs 42.
Proof. intros b. exists (world b). now destruct b. Defined.

Lemma subscribe_unsubscribe_round_trip_witness :
  exists b1 b2,
    subscribe (Exn := string) "a" 1 (fresh 0) = Returned true b1 /\
    unsubscribe (Exn := string) "a" 1 b1 = Returned true b2 /\
    (forall name, dispatch_order (_subscribers b2) name = []) /\
    PyDict.mem (_subscribers b2) "a" = true.
Proof.
  destruct (subscribe_unsubscribe_round_trip (Exn := string) "a" 1 (fresh 0))
    as (b1 & b2 & H1 & H2 & _ & H4 & H5 & _).
  - simpl. tauto.
  - exists b1, b2. repeat split; assumption.
Defined.

Lemma publish_without_subscriber_witness :
  publish idle (named "a") (fresh 0) = Returned false (fresh 0).
Proof. apply (publish_without_subscriber idle). reflexivity. Defined.

Lemma flush_in_buffer_order_witness :
  exists b',
    _flush_buffer idle None
      (mkBus [("a", [1])] [named "a"; named "b"; named "a"] 3 [] tt)
    = Returned (3 - length (_buffer b')) b' /\
    _buffer b' = [named "b"] /\
    calls b' = [(1, named "a"); (1, named "a")].
Proof.
  destruct (flush_in_buffer_order idle None
              (mkBus [("a", [1])] [named "a"; named "b"; named "a"] 3 [] tt))
    as (b' & H1 & H2 & H3 & _).
  - simpl. lia.
  - exact idle_quiet.
  - exists b'. repeat split; assumption.
Defined.

Lemma flush_twice_witness :
  exists n b1 b2,
    _flush_buffer idle None
      (mkBus [("a", [1])] [named "a"; named "b"] 2 [] tt) = Returned n b1 /\
    _flush_buffer idle None b1 = Returned 0 b2 /\
    _buffer b2 = _buffer b1.
Proof.
  destruct (flush_twice idle None
              (mkBus [("a", [1])] [named "a"; named "b"] 2 [] tt))
    as (n & b1 & b2 & H1 & H2 & H3 & _).
  - simpl. lia.
  - exact idle_quiet.
  - exists n, b1, b2. repeat split; assumption.
Defined.

Lemma flush_raise_drops_event_witness :
  exists b',
    _flush_buffer breaking None
      (mkBus [("a", [1; 2; 3]); ("z", [1])]
             [named "z"; named "a"; named "b"] 3 [] tt)
    = Raised "broken" b' /\
    _buffer b' = [named "b"] /\
    calls b' = [(1, named "z"); (1, named "a"); (2, named "a")].
Proof.
  destruct (flush_raise_drops_event breaking None
              [named "z"] (named "a") [named "b"] [1] 2 [3] "broken"
              (mkBus [("a", [1; 2; 3]); ("z", [1])]
                     [named "z"; named "a"; named "b"] 3 [] tt))
    as (b' & H1 & H2 & H3).
  - reflexivity.
  - simpl. lia.
  - intros x c [<-|[]] _ [<-|[]]. apply breaking_quiet. discriminate.
  - reflexivity.
  - reflexivity.
  - intros c [<-|[]]. apply breaking_quiet. discriminate.
  - exact breaking_raises.
  - exists b'. repeat split; assumption.
Defined.

Lemma flush_count_bounded_witness :
  1 <= length (_buffer (mkBus (Any := nat) (Ext := unit)
                              [("a", [1])] [named "a"] 1 [] tt)).
Proof.
  apply (flush_count_bounded idle None
           (mkBus [("a", [1])] [named "a"] 1 [] tt) 1
           (mkBus [("a", [1])] [] 1 [(1, named "a")] tt)).
  reflexivity.
Defined.

Lemma buffered_subscribe_registers_witness :
  BufferedEventBus_subscribe faulty "e" 2 (mkBus [] [named "e"] 5 [] tt)
  = Raised "boom" (mkBus [("e", [2])] [] 5 [(2, named "e")] tt) /\
  _subscribers (final (BufferedEventBus_subscribe faulty "e" 2
                         (mkBus [] [named "e"] 5 [] tt)))
  = [("e", [2])].
Proof.
  split; [reflexivity|].
  apply (buffered_subscribe_registers faulty "e" 2
           (mkBus [] [named "e"] 5 [] tt)).
  intros c ev x. unfold faulty. destruct (Nat.eqb c 2); reflexivity.
Defined.

Lemma buffered_publish_quiet_witness :
  exists b',
    BufferedEventBus_publish idle (named "b")
      (mkBus [("a", [1])] [named "old"; named "older"] 2 [] tt)
    = Returned false b' /\
    _buffer b' = [named "older"; named "b"].
Proof.
  destruct (buffered_publish_quiet idle (named "b")
              (mkBus [("a", [1])] [named "old"; named "older"] 2 [] tt))
    as (b' & H1 & H2 & _).
  - simpl. lia.
  - exact idle_quiet.
  - exists b'. split; assumption.
Defined.

Lemma buffer_keeps_most_recent_witness :
  exists b',
    publish_all idle [named "a"; named "b"] (mkBus [] [named "old"] 2 [] tt)
    = Returned [false; false] b' /\
    _buffer b' = [named "a"; named "b"].
Proof.
  destruct (buffer_keeps_most_recent idle [named "a"; named "b"]
              (mkBus [] [named "old"] 2 [] tt)) as (b' & H1 & H2).
  - simpl. lia.
  - intros x _. reflexivity.
  - intros x _. reflexivity.
  - exists b'. split; assumption.
Defined.

Lemma trim_by_nonempty_prefix_witness :
  exists n b',
    trim_by_prefix idle "tool"
      (mkBus [] [named "tool.x"; named "log"; named "tool.y"] 5 [] tt)
    = Returned n b' /\
    (forall ev, In ev (_buffer b') ->
                PyStr.startswith (event_name ev) "tool" = false) /\
    2 <= n.
Proof.
  destruct (trim_by_nonempty_prefix idle "tool"
              (mkBus [] [named "tool.x"; named "log"; named "tool.y"] 5 [] tt))
    as (n & b' & l & H1 & H2 & H3 & _).
  - discriminate.
  - simpl. lia.
  - exact idle_quiet.
  - exists n, b'. repeat split; assumption.
Defined.

Lemma singleton_reuses_instance_witness :
  SingletonMeta_call BufferedEventBus_class (Some (-1)%Z) tt
                     [(BufferedEventBus_class, fresh 255)]
  = inl ([(BufferedEventBus_class, fresh 255)], fresh 255).
Proof.
  apply (singleton_reuses_instance BufferedEventBus_class None tt []).
  reflexivity.
Defined.

Lemma singleton_per_class_witness :
  instance_of (Any := nat) (Ext := unit)
              [(JustToolsBus_class, fresh 0);
               (just_tool_JustToolsBus_class, JustEventBus_init tt)]
              JustToolsBus_class
  = Some (fresh 0).
Proof.
  destruct (singleton_per_class just_tool_JustToolsBus_class None tt
              [(JustToolsBus_class, fresh 0)]
              [(JustToolsBus_class, fresh 0);
               (just_tool_JustToolsBus_class, JustEventBus_init tt)]
              (JustEventBus_init tt) eq_refl) as (_ & H).
  apply (H JustToolsBus_class). discriminate.
Defined.

Lemma tool_call_success_witness :
  exists b',
    _wrap_function idle size_of_dict length_of_message every_exception answer
                   "t" [7] [] (mkBus [("t.*", [1])] [] 0 [] tt)
    = Returned 42 b' /\
    calls b'
    = [(1, execute_event size_of_dict "t" [7] []);
       (1, result_event size_of_dict "t" 42 [])].
Proof.
  destruct (tool_call_success idle size_of_dict length_of_message
              every_exception answer "t" [7] [] 42
              (mkBus [("t.*", [1])] [] 0 [] tt))
    as (b' & H1 & H2 & _).
  - exact idle_quiet.
  - apply answer_returns.
  - exists b'. split; assumption.
Defined.

Lemma tool_call_failure_witness :
  exists b',
    _wrap_function idle size_of_dict length_of_message every_exception failing
                   "t" [7] [] (mkBus [("t.*", [1])] [] 0 [] tt)
    = Raised "failed" b' /\
    calls b'
    = [(1, execute_event size_of_dict "t" [7] []);
       (1, error_event length_of_message "t" "failed")].
Proof.
  destruct (tool_call_failure idle size_of_dict length_of_message
              every_exception failing "t" [7] [] "failed"
              (mkBus [("t.*", [1])] [] 0 [] tt))
    as (b' & H1 & H2 & _).
  - exact idle_quiet.
  - intros b. exists (world b). now destruct b.
  - exists b'. split; assumption.
Defined.

Lemma tool_result_subscriber_raises_witness :
  exists b',
    _wrap_function breaking size_of_dict length_of_message every_exception
                   answer "t" [] []
                   (mkBus [("t.result", [2]); ("t.error", [1])] [] 0 [] tt)
    = Raised "broken" b' /\
    calls b'
    = [(2, result_event size_of_dict "t" 42 []);
       (1, error_event length_of_message "t" "broken")].
Proof.
  destruct (tool_result_subscriber_raises breaking size_of_dict
              length_of_message every_exception answer "t" [] [] 42
              [] 2 [] "broken"
              (mkBus [("t.result", [2]); ("t.error", [1])] [] 0 [] tt))
    as (b' & H1 & H2).
  - apply answer_returns.
  - reflexivity.
  - intros c [].
  - reflexivity.
  - intros c [].
  - exact breaking_raises.
  - intros c [<-|[]]. apply breaking_quiet. discriminate.
  - exists b'. split; assumption.
Defined.

Lemma tool_execute_subscriber_raises_witness :
  _wrap_function breaking size_of_dict length_of_message every_exception
                 answer "t" [] [] (mkBus [("t.execute", [2])] [] 0 [] tt)
  = Raised "broken"
      (mkBus [("t.execute", [2])] [] 0
             [(2, execute_event size_of_dict "t" [] [])] tt).
Proof.
  destruct (tool_execute_subscriber_raises breaking size_of_dict
              length_of_message every_exception answer "t" [] []
              [] 2 [] "broken" (mkBus [("t.execute", [2])] [] 0 [] tt))
    as ([] & H).
  - reflexivity.
  - intros c [].
  - exact breaking_raises.
  - exact H.
Defined.

Lemma tool_wildcard_subscription_witness :
  exists b1 b2,
    JustTool_subscribe (Exn := string) "search" 1 None (fresh 0)
    = Returned true b1 /\
    _wrap_function idle size_of_dict length_of_message every_exception answer
                   "search_web" [] [] b1 = Returned 42 b2 /\
    In (1, execute_event size_of_dict "search_web" [] []) (calls b2).
Proof.
  destruct (tool_wildcard_subscription idle size_of_dict length_of_message
              every_exception answer "search" "_web" 1 [] [] 42 (fresh 0))
    as (b1 & b2 & H1 & H2 & H3 & _).
  - exact idle_quiet.
  - apply answer_returns.
  - exists b1, b2. repeat split; assumption.
Defined.

Lemma tool_unsubscribe_needs_same_type_witness :
  exists b1,
    JustTool_subscribe (Exn := string) "t" 1 None (fresh 0) = Returned true b1 /\
    JustTool_unsubscribe (Exn := string) "t" 1 (Some "execute") b1
    = Returned false b1.
Proof.
  destruct (tool_unsubscribe_needs_same_type (Exn := string)
              "t" 1 "execute" (fresh 0)) as (b1 & H1 & H2 & _).
  - discriminate.
  - simpl. tauto.
  - exists b1. split; assumption.
Defined.

Lemma log_line_is_buffered_witness :
  exists b',
    info idle length_of_message "TypeError" "hi" None None
         (Keywords [("user", 7)] eq_refl) (fresh 3)
    = Returned tt b' /\
    _buffer b'
    = [Event "anonymous_logger" []
             [("log_message", 2); ("action", 12); ("severity", 4);
              ("user", 7)]].
Proof.
  destruct (log_line_is_buffered idle length_of_message "TypeError"
              info "INFO" "log_bus.info" "hi" None None
              (Keywords [("user", 7)] eq_refl) (fresh 3))
    as (b' & H1 & H2 & _).
  - simpl. tauto.
  - intros k [<-|[<-|[<-|[<-|[]]]]]; reflexivity.
  - simpl. lia.
  - reflexivity.
  - intros x [].
  - exists b'. split; assumption.
Defined.

Lemma log_line_is_delivered_witness :
  exists b' calls',
    error idle length_of_message "TypeError" "down" (Some "app.db") None
          (Keywords [] eq_refl) (mkBus [("app.*", [1])] [] 3 [] tt)
    = Returned tt b' /\
    calls b' = calls' /\
    In (1, Event "app.db" []
                 [("log_message", 4); ("action", 13); ("severity", 5)])
       calls'.
Proof.
  destruct (log_line_is_delivered idle length_of_message "TypeError"
              error "ERROR" "log_bus.error" "down" (Some "app.db") None
              (Keywords [] eq_refl)
              "app.*" [1] 1 (mkBus [("app.*", [1])] [] 3 [] tt))
    as (b' & calls' & H1 & H2 & H3 & _).
  - simpl. tauto.
  - intros k [<-|[<-|[<-|[<-|[]]]]]; reflexivity.
  - simpl. lia.
  - exact idle_quiet.
  - reflexivity.
  - now left.
  - right. exists "app", ".db". split; reflexivity.
  - exists b', calls'. repeat split; assumption.
Defined.
